(** * employee_analysis.py: a shallow embedding and its properties

    The script loads or synthesises an employee table, counts the rows of the
    Finance department, draws a bar chart of the departments and writes an
    HTML report that embeds the chart and the script's own text.

    Conventions of the embedding:
    - a Python [str] and a [bytes] value are Rocq strings (sequences of
      8-bit characters, i.e. the UTF-8 encoding of the text);
    - Python integers are [Z]; a [float64] drawn by the generator is the
      rational number it denotes ([Q]);
    - the file system is a finite map from paths to file contents, standard
      output is the list of printed lines;
    - a Python exception is a value of type [exn]; code that may raise
      returns a [result];
    - numpy's generator, pandas' CSV reader and matplotlib's rasteriser are
      libraries outside the script: they are parameters of the development. *)

From Stdlib Require Import Ascii QArith Qabs Lqa.
From stdpp Require Import gmap strings list sorting pretty.

Local Open Scope Z_scope.

(** ** Characters that cannot be written inside a string literal *)

Definition dquote : string := String (Ascii.ascii_of_nat 34) "".
Definition newline : string := String (Ascii.ascii_of_nat 10) "".
Definition chr (n : nat) : ascii := Ascii.ascii_of_nat n.

(** ** Exceptions and results *)

Inductive exn : Type :=
| KeyError (key : string)
| ValueError (msg : string)
| IndexError
| TypeError
| FileNotFoundError (path : string)
| LibraryError (msg : string).

Inductive result (A : Type) : Type :=
| Ok (a : A)
| Raise (e : exn).
Arguments Ok {A} a.
Arguments Raise {A} e.

Definition result_bind {A B} (m : result A) (k : A → result B) : result B :=
  match m with
  | Ok a => k a
  | Raise e => Raise e
  end.

(** ** The process: files and standard output

    A computation of the script runs in a world and either returns a value
    or raises; in both cases the world it leaves behind is recorded, so that
    what a failed run has written or printed is visible. *)

Record world : Type := World {
  files : gmap string string;
  stdout : list string
}.

Definition IO (A : Type) : Type := world → result A * world.

Definition io_ret {A} (a : A) : IO A := λ w, (Ok a, w).

Definition io_bind {A B} (m : IO A) (k : A → IO B) : IO B :=
  λ w, match m w with
       | (Ok a, w') => k a w'
       | (Raise e, w') => (Raise e, w')
       end.

Definition lift {A} (r : result A) : IO A := λ w, (r, w).

Declare Scope io_scope.
Delimit Scope io_scope with io.
Notation "x <- m ;; k" := (io_bind m (λ x, k))
  (at level 100, m at next level, right associativity) : io_scope.
Notation "m ;;; k" := (io_bind m (λ _, k))
  (at level 100, right associativity) : io_scope.

(** [Path.exists] *)
Definition path_exists (p : string) : IO bool :=
  λ w, (Ok (bool_decide (is_Some (files w !! p))), w).

(** The read that [pd.read_csv] performs: the bytes of the file as they
    are; decoding them is the reader's business. *)
Definition read_bytes (p : string) : IO string :=
  λ w, match files w !! p with
       | Some s => (Ok s, w)
       | None => (Raise (FileNotFoundError p), w)
       end.

(** Reading in text mode translates line ends: a carriage return, alone or
    followed by a line feed, is read as one line feed. *)
Fixpoint universal_newlines (s : string) : string :=
  match s with
  | EmptyString => EmptyString
  | String c s' =>
      if Ascii.eqb c (chr 13)
      then String (chr 10)
             match s' with
             | String c' s'' =>
                 if Ascii.eqb c' (chr 10) then universal_newlines s''
                 else universal_newlines s'
             | EmptyString => EmptyString
             end
      else String c (universal_newlines s')
  end.

(** [Path.read_text(encoding="utf-8")].  The file the script reads this way
    is the script itself, which the interpreter has decoded as UTF-8 before
    running it; the text read is therefore the bytes of the file with their
    line ends translated. *)
Definition read_text (p : string) : IO string :=
  λ w, match files w !! p with
       | Some s => (Ok (universal_newlines s), w)
       | None => (Raise (FileNotFoundError p), w)
       end.

(** [Path.write_text] and the write of [DataFrame.to_csv]: the file is
    created or overwritten.  A write of the embedding is a write that the
    disk has completed; a disk that refuses or cuts a write is not
    represented, so nothing below speaks about such runs. *)
Definition write_text (p : string) (s : string) : IO unit :=
  λ w, (Ok tt, World (<[p := s]> (files w)) (stdout w)).

(** [print] *)
Definition print (line : string) : IO unit :=
  λ w, (Ok tt, World (files w) (stdout w ++ [line])).

(** ** [str.replace]

    Occurrences of [old] are replaced from left to right without overlap.
    [skip] counts the characters of a matched occurrence that are still to
    be consumed. *)

Fixpoint replace_from (old new : string) (skip : nat) (s : string) : string :=
  match s with
  | EmptyString => EmptyString
  | String c s' =>
      match skip with
      | S k => replace_from old new k s'
      | O =>
          if String.prefix old s
          then new +:+ replace_from old new (String.length old - 1)%nat s'
          else String c (replace_from old new 0 s')
      end
  end.

(** With an empty [old], Python puts [new] before every character and at
    the end. *)
Fixpoint interleave (new : string) (s : string) : string :=
  match s with
  | EmptyString => new
  | String c s' => new +:+ String c (interleave new s')
  end.

Definition replace (old new s : string) : string :=
  match old with
  | EmptyString => interleave new s
  | _ => replace_from old new 0 s
  end.

(** The escaping step of [main]. *)
Definition escape_html (code_text : string) : string :=
  replace ">" "&gt;" (replace "<" "&lt;" (replace "&" "&amp;" code_text)).

(** ** Tables

    A cell of a table is an integer, a string or a missing value (NaN).
    A [DataFrame] is stored by columns, in column order, as pandas does. *)

Inductive cell : Type :=
| CInt (z : Z)
| CStr (s : string)
| CNaN.

Global Instance cell_eq_dec : EqDecision cell.
Proof. solve_decision. Defined.

Global Instance cell_inhabited : Inhabited cell := populate CNaN.

Record DataFrame : Type := MkFrame {
  nrows : nat;
  columns : list (string * list cell)
}.

(** Every column has one cell per row and no two columns share a name. *)
Definition well_formed (df : DataFrame) : Prop :=
  Forall (λ c, length c.2 = nrows df) (columns df) ∧ NoDup (columns df).*1.

(** [pd.DataFrame(data)] for a dict of equally long sequences. *)
Definition DataFrame_of_dict (data : list (string * list cell)) : result DataFrame :=
  match data with
  | [] => Ok (MkFrame 0 [])
  | (_, c) :: _ =>
      if forallb (λ kc, Nat.eqb (length kc.2) (length c)) data
      then Ok (MkFrame (length c) data)
      else Raise (ValueError "All arrays must be of the same length")
  end.

Fixpoint assoc (name : string) (cols : list (string * list cell)) : option (list cell) :=
  match cols with
  | [] => None
  | (k, c) :: rest => if String.eqb k name then Some c else assoc name rest
  end.

(** [df[name]] *)
Definition getitem (df : DataFrame) (name : string) : result (list cell) :=
  match assoc name (columns df) with
  | Some c => Ok c
  | None => Raise (KeyError name)
  end.

(** [series == value] for a string [value]: elementwise, a cell that is not
    a string is never equal to it. *)
Definition cell_eq_str (value : string) (c : cell) : bool :=
  match c with
  | CStr s => String.eqb s value
  | _ => false
  end.

Definition series_eq (col : list cell) (value : string) : list bool :=
  map (cell_eq_str value) col.

(** [.sum()] of a boolean series. *)
Definition bool_sum (bs : list bool) : Z :=
  foldr (λ (b : bool) acc, (if b then 1 else 0) + acc) 0 bs.

(** The rows of a table, each a record from column name to cell. *)
Definition record_at (df : DataFrame) (i : nat) : list (string * cell) :=
  map (λ kc, (kc.1, kc.2 !!! i)) (columns df).

Definition records (df : DataFrame) : list (list (string * cell)) :=
  map (record_at df) (seq 0 (nrows df)).

Fixpoint field (name : string) (r : list (string * cell)) : option cell :=
  match r with
  | [] => None
  | (k, v) :: rest => if String.eqb k name then Some v else field name rest
  end.

(** ** Writing a table as CSV ([DataFrame.to_csv(path, index=False)])

    Fields are separated by commas, lines end in a line feed, a missing
    value is the empty field, and a field is quoted only when it contains
    the separator, a quote or a line break (the quote is then doubled). *)

Definition str_of_Z (z : Z) : string := pretty z.

Definition needs_quote (s : string) : bool :=
  existsb (λ c, bool_decide (c = chr 44 ∨ c = chr 34 ∨ c = chr 10 ∨ c = chr 13))
          (String.list_ascii_of_string s).

Definition csv_field (s : string) : string :=
  if needs_quote s
  then dquote +:+ replace dquote (dquote +:+ dquote) s +:+ dquote
  else s.

Definition cell_text (c : cell) : string :=
  match c with
  | CInt z => str_of_Z z
  | CStr s => csv_field s
  | CNaN => ""
  end.

Fixpoint join (sep : string) (l : list string) : string :=
  match l with
  | [] => ""
  | [x] => x
  | x :: rest => x +:+ sep +:+ join sep rest
  end.

Definition csv_line (fields : list string) : string := join "," fields +:+ newline.

Definition csv_text (df : DataFrame) : string :=
  csv_line (map csv_field (columns df).*1) +:+
  String.concat "" (map (λ r, csv_line (map (λ kv, cell_text kv.2) r)) (records df)).

Definition to_csv (df : DataFrame) (path : string) : IO unit :=
  write_text path (csv_text df).

(** ** numpy's random generator

    [np.random.default_rng(seed)] returns a generator object whose state
    every draw advances.  The bit generator behind it is numpy's; the script
    relies on the documented contract of two draws only: [random] returns a
    float in the half-open interval from 0 to 1, and [integers low high]
    an integer from [low] up to and excluding [high]. *)

Class Generator (G : Type) : Type := {
  default_rng : Z → G;
  random : G → Q * G;
  integers : Z → Z → G → Z * G;
  random_range : ∀ g, (0 <= (random g).1)%Q ∧ ((random g).1 < 1)%Q;
  integers_range : ∀ lo hi g, lo < hi → lo ≤ (integers lo hi g).1 < hi
}.

(** [size] consecutive draws, in the order the generator makes them. *)
Fixpoint draws {G A} (step : G → A * G) (size : nat) (g : G) : list A * G :=
  match size with
  | O => ([], g)
  | S n =>
      let '(x, g1) := step g in
      let '(xs, g2) := draws step n g1 in
      (x :: xs, g2)
  end.

(** [ndarray.cumsum] *)
Fixpoint cumsum_from (acc : Q) (p : list Q) : list Q :=
  match p with
  | [] => []
  | x :: rest => (acc + x)%Q :: cumsum_from (acc + x)%Q rest
  end.

Definition cumsum (p : list Q) : list Q :=
  match p with
  | [] => []
  | x :: rest => x :: cumsum_from x rest
  end.

Definition Qsum (l : list Q) : Q := foldr Qplus 0%Q l.

(** [cdf.searchsorted(v, side='right')]: the insertion point after the
    entries that are at most [v]; on the nondecreasing [cdf] the binary
    search finds the number of such entries. *)
Definition searchsorted_right (cdf : list Q) (v : Q) : nat :=
  length (filter (λ c, Is_true (Qle_bool c v)) cdf).

(** [a.take(idx)] *)
Fixpoint take_indices (a : list string) (idx : list nat) : result (list string) :=
  match idx with
  | [] => Ok []
  | i :: rest =>
      match a !! i with
      | Some x => result_bind (take_indices a rest) (λ xs, Ok (x :: xs))
      | None => Raise IndexError
      end
  end.

(** The tolerance of the check that the probabilities sum to one: the
    square root of the float64 machine epsilon, 2^-26. *)
Definition atol : Q := 1 # 67108864.

(** [Generator.choice(a, size=size, p=p)] (with replacement): validation of
    [p], then inversion of the cumulative distribution at [size] uniform
    draws.  Floats are read as the rationals they denote and their
    arithmetic as exact. *)
Definition choice `{Generator G} (a : list string) (size : nat) (p : list Q) (g : G)
  : result (list string * G) :=
  if bool_decide (a = []) && negb (Nat.eqb size 0)
  then Raise (ValueError "a cannot be empty unless no samples are taken")
  else if negb (Nat.eqb (length p) (length a))
  then Raise (ValueError "a and p must have same size")
  else if existsb (λ x, negb (Qle_bool 0 x)) p
  then Raise (ValueError "probabilities are not non-negative")
  else if negb (Qle_bool (Qabs (Qsum p - 1)) atol)
  then Raise (ValueError "probabilities do not sum to 1")
  else
    let cdf := cumsum p in
    let cdf := map (λ c, (c / List.last cdf 0%Q)%Q) cdf in
    let '(uniform_samples, g') := draws random size g in
    let idx := map (searchsorted_right cdf) uniform_samples in
    result_bind (take_indices a idx) (λ xs, Ok (xs, g')).

(** ** Counting the values of a column

    [Series.value_counts()] drops missing values and lists every distinct
    value with its number of occurrences, most frequent first.
    [Series.sort_index()] then orders the entries by label; labels of one
    type are comparable (strings by code points, integers by value), labels
    of several types are not and sorting them raises. *)

Definition dropna (col : list cell) : list cell := filter (λ c, c ≠ CNaN) col.

Definition occurrences (c : cell) (col : list cell) : nat :=
  length (filter (λ x, x = c) col).

(** The distinct values in order of first appearance. *)
Definition unique (col : list cell) : list cell :=
  reverse (remove_dups (reverse col)).

Definition count_ge : relation (cell * nat) := λ a b, (b.2 ≤ a.2)%nat.

Global Instance count_ge_dec a b : Decision (count_ge a b).
Proof. unfold count_ge. apply _. Defined.

Definition value_counts (col : list cell) : list (cell * nat) :=
  let vals := dropna col in
  merge_sort count_ge (map (λ c, (c, occurrences c vals)) (unique vals)).

Definition cell_leb (a b : cell) : bool :=
  match a, b with
  | CInt x, CInt y => x <=? y
  | CStr s, CStr t => String.leb s t
  | CInt _, CStr _ => true
  | CStr _, CInt _ => false
  | CNaN, _ => true
  | _, CNaN => false
  end.

Definition label_le : relation (cell * nat) := λ a b, Is_true (cell_leb a.1 b.1).

Global Instance label_le_dec a b : Decision (label_le a b).
Proof. unfold label_le. apply _. Defined.

Definition is_str (c : cell) : bool := match c with CStr _ => true | _ => false end.
Definition is_int (c : cell) : bool := match c with CInt _ => true | _ => false end.

Definition sort_index (s : list (cell * nat)) : result (list (cell * nat)) :=
  if forallb is_str s.*1 || forallb is_int s.*1
  then Ok (merge_sort label_le s)
  else Raise TypeError.

(** ** The chart

    What the script asks matplotlib to draw: one bar per entry of [bars],
    from left to right in the order of the list. *)

Record Figure : Type := MkFigure {
  figsize : Z * Z;
  bars : list (cell * nat);
  title : string;
  xlabel : string;
  ylabel : string;
  xtick_rotation : Z;
  tight_layout : bool
}.

(** ** [base64.b64encode] *)

Definition b64_alphabet : string :=
  "ABCDEFGHIJKLMNOPQRSTUVWXYZabcdefghijklmnopqrstuvwxyz0123456789+/".

Definition b64_char (n : N) : ascii :=
  default (chr 61) (String.get (N.to_nat n) b64_alphabet).

Fixpoint b64_groups (l : list N) : string :=
  (match l with
   | [] => ""
   | [a] =>
       String (b64_char (a / 4)) (String (b64_char (a mod 4 * 16)) "==")
   | [a; b] =>
       String (b64_char (a / 4)) (String (b64_char (a mod 4 * 16 + b / 16))
         (String (b64_char (b mod 16 * 4)) "="))
   | a :: b :: c :: rest =>
       String (b64_char (a / 4)) (String (b64_char (a mod 4 * 16 + b / 16))
         (String (b64_char (b mod 16 * 4 + c / 64))
           (String (b64_char (c mod 64)) (b64_groups rest))))
   end)%N.

Definition b64encode (bytes : string) : string :=
  b64_groups (map N_of_ascii (String.list_ascii_of_string bytes)).

(** ** The report

    The f-string of [build_html_report], cut at its three placeholders. *)

Definition html_before_count : string :=
"<!doctype html>
<html lang=" +:+ dquote +:+ "en" +:+ dquote +:+ ">
<head>
  <meta charset=" +:+ dquote +:+ "utf-8" +:+ dquote +:+ " />
  <title>Employee Analysis Report</title>
  <meta name=" +:+ dquote +:+ "viewport" +:+ dquote +:+ " content=" +:+ dquote +:+
  "width=device-width, initial-scale=1" +:+ dquote +:+ " />
  <style>
    body { font-family: system-ui, -apple-system, Segoe UI, Roboto, Arial, sans-serif; margin: 24px; }
    h1, h2 { margin: 0.2em 0; }
    .code { white-space: pre; background: #f5f5f5; border: 1px solid #e0e0e0; padding: 12px; overflow-x: auto; }
    .meta { color: #444; margin-bottom: 16px; }
    .imgwrap { display: flex; justify-content: center; margin: 16px 0; }
  </style>
</head>
<body>
  <h1>Employee Performance Analysis</h1>
  <div class=" +:+ dquote +:+ "meta" +:+ dquote +:+
  ">Author contact: <strong>24ds1000011@ds.study.iitm.ac.in</strong></div>

  <h2>Finance Department Frequency</h2>
  <p>Number of employees in <strong>Finance</strong>: <strong>".

Definition html_before_image : string :=
"</strong></p>

  <h2>Department Distribution (Histogram-style)</h2>
  <div class=" +:+ dquote +:+ "imgwrap" +:+ dquote +:+ ">
    <img alt=" +:+ dquote +:+ "Department Distribution" +:+ dquote +:+
  " src=" +:+ dquote +:+ "data:image/png;base64,".

Definition html_before_code : string :=
  dquote +:+ " />
  </div>

  <h2>Python Code</h2>
  <div class=" +:+ dquote +:+ "code" +:+ dquote +:+ ">".

Definition html_end : string :=
"</div>
</body>
</html>".

Definition report_html (code_text img_b64 : string) (finance_count : Z) : string :=
  html_before_count +:+ str_of_Z finance_count +:+
  html_before_image +:+ img_b64 +:+
  html_before_code +:+ code_text +:+ html_end.

Definition build_html_report (code_text img_png_bytes : string) (finance_count : Z)
    (out_html : string) : IO unit :=
  let img_b64 := b64encode img_png_bytes in
  write_text out_html (report_html code_text img_b64 finance_count).

(** ** The script *)

Section Script.
Context {G : Type} `{!Generator G}.
(** [pd.read_csv] on the text of a file: the table, or the parser's error. *)
Variable read_csv : string → result DataFrame.
(** [fig.savefig(buf, format="png", bbox_inches="tight")]: the PNG bytes,
    or the failure of the renderer. *)
Variable savefig : Figure → result string.
(** [__file__], the path of the script itself. *)
Variable script_file : string.

Definition departments : list string :=
  ["Finance"; "HR"; "IT"; "Operations"; "Sales"; "Marketing"].
Definition regions : list string := ["North"; "South"; "East"; "West"].
Definition department_p : list Q :=
  [18 # 100; 12 # 100; 22 # 100; 20 # 100; 18 # 100; 10 # 100]%Q.
Definition region_p : list Q := [3 # 10; 25 # 100; 25 # 100; 2 # 10]%Q.

(** [range(lo, hi)] *)
Definition range (lo hi : Z) : list Z := seqZ lo (hi - lo).

(** The [else] branch of [load_or_generate_data] up to the construction
    of the table. *)
Definition generate_data : result DataFrame :=
  let rng := default_rng 7 in
  result_bind (choice departments 100 department_p rng) (λ '(dept, rng),
  result_bind (choice regions 100 region_p rng) (λ '(region, rng),
  let '(score, rng) := draws (integers 1 6) 100 rng in
  DataFrame_of_dict
    [("Employee_ID", map CInt (range 1 101));
     ("Department", map CStr dept);
     ("Region", map CStr region);
     ("Performance_Score", map CInt score)])).

Definition load_or_generate_data (csv_path : string) : IO DataFrame :=
  (present <- path_exists csv_path ;;
   if present then
     content <- read_bytes csv_path ;;
     lift (read_csv content)
   else
     df <- lift generate_data ;;
     to_csv df csv_path ;;;
     io_ret df)%io.

(** The chart that [plot_department_distribution] sets up. *)
Definition department_figure (df : DataFrame) : result Figure :=
  result_bind (getitem df "Department") (λ col,
  result_bind (sort_index (value_counts col)) (λ counts,
  Ok {| figsize := (8, 5);
        bars := counts;
        title := "Department Distribution (Employee Count)";
        xlabel := "Department";
        ylabel := "Count";
        xtick_rotation := 30;
        tight_layout := true |})).

Definition plot_department_distribution (df : DataFrame) : result string :=
  result_bind (department_figure df) savefig.

Definition finance_count_of (col : list cell) : Z :=
  bool_sum (series_eq col "Finance").

Definition main : IO unit :=
  (let csv_path := "employees.csv" in
   let out_html := "employee_report.html" in
   df <- load_or_generate_data csv_path ;;
   col <- lift (getitem df "Department") ;;
   let finance_count := finance_count_of col in
   print ("Finance department frequency: " +:+ str_of_Z finance_count) ;;;
   img_bytes <- lift (plot_department_distribution df) ;;
   code_text <- read_text script_file ;;
   let code_text := escape_html code_text in
   build_html_report code_text img_bytes finance_count out_html)%io.

End Script.

(** ** A concrete environment

    A small generator, a small CSV reader and a stand-in rasteriser, to run
    the script on concrete worlds. *)

Module Demo.

(** A 16-bit linear congruential generator. *)
Definition lcg_next (s : Z) : Z := (s * 25173 + 13849) mod 65536.

Definition lcg_random (s : Z) : Q * Z := (Qmake (lcg_next s) 65536, lcg_next s).

Definition lcg_integers (lo hi : Z) (s : Z) : Z * Z :=
  (lo + lcg_next s mod (hi - lo), lcg_next s).

Global Instance lcg : Generator Z.
Proof.
  refine {| default_rng seed := seed mod 65536;
            random := lcg_random;
            integers := lcg_integers |}.
  - intros s. unfold lcg_random, lcg_next, Qle, Qlt; simpl.
    pose proof (Z.mod_pos_bound (s * 25173 + 13849) 65536). lia.
  - intros lo hi s Hlt. unfold lcg_integers; simpl.
    pose proof (Z.mod_pos_bound (lcg_next s) (hi - lo)). lia.
Defined.

(** Splitting a text at a separator character. *)
Fixpoint split_on (sep : ascii) (s : string) : list string :=
  match s with
  | EmptyString => [EmptyString]
  | String c s' =>
      if Ascii.eqb c sep then EmptyString :: split_on sep s'
      else match split_on sep s' with
           | [] => [String c EmptyString]
           | x :: rest => String c x :: rest
           end
  end.

Definition parse_cell (s : string) : cell :=
  match s with
  | EmptyString => CNaN
  | _ => CStr s
  end.

(** A reader for unquoted, comma-separated text with a header line; every
    non-empty field is read as a string. *)
Definition read_csv (text : string) : result DataFrame :=
  let lines := filter (λ l, l ≠ EmptyString) (split_on (chr 10) text) in
  match map (split_on (chr 44)) lines with
  | [] => Raise (LibraryError "No columns to parse from file")
  | header :: rows =>
      if forallb (λ r, Nat.eqb (length r) (length header)) rows
      then Ok (MkFrame (length rows)
                 (imap (λ j name, (name, map (λ r, parse_cell (r !!! j)) rows)) header))
      else Raise (LibraryError "Error tokenizing data")
  end.

(** The stand-in rasteriser lists the bar labels and heights. *)
Definition label_text (c : cell) : string :=
  match c with
  | CInt z => str_of_Z z
  | CStr s => s
  | CNaN => "nan"
  end.

Definition savefig (fig : Figure) : result string :=
  Ok (String.concat ";" (map (λ b, label_text b.1 +:+ "=" +:+ pretty b.2) (bars fig))).

Definition script_file : string := "employee_analysis.py".

Definition script_text : string := "if a < b and b > c: print(a & c)".

(** A working directory with the script only. *)
Definition fresh : world := World {[ script_file := script_text ]} [].

(** A working directory with the script and a dataset. *)
Definition small_csv : string :=
  "Employee_ID,Department,Region" +:+ newline +:+
  "1,IT,North" +:+ newline +:+
  "2,Finance,South" +:+ newline +:+
  "3,HR,East" +:+ newline +:+
  "4,Finance,West" +:+ newline +:+
  "5,finance,West" +:+ newline.

Definition loaded : world :=
  World {[ script_file := script_text; "employees.csv" := small_csv ]} [].

(** The table the reader makes of [small_csv]. *)
Definition small_frame : DataFrame :=
  MkFrame 5
    [("Employee_ID", [CStr "1"; CStr "2"; CStr "3"; CStr "4"; CStr "5"]);
     ("Department",
      [CStr "IT"; CStr "Finance"; CStr "HR"; CStr "Finance"; CStr "finance"]);
     ("Region", [CStr "North"; CStr "South"; CStr "East"; CStr "West"; CStr "West"])].

(** A dataset without a department column. *)
Definition headless_csv : string :=
  "Employee_ID,Region" +:+ newline +:+ "1,North" +:+ newline.

Definition headless : world :=
  World {[ script_file := script_text; "employees.csv" := headless_csv ]} [].

(** A table whose departments are IT, Finance and HR, in that order. *)
Definition three_frame : DataFrame :=
  MkFrame 3
    [("Employee_ID", [CInt 1; CInt 2; CInt 3]);
     ("Department", [CStr "IT"; CStr "Finance"; CStr "HR"])].

Definition headless_frame : DataFrame :=
  MkFrame 1 [("Employee_ID", [CStr "1"]); ("Region", [CStr "North"])].

End Demo.


(** ** Vocabulary of the properties *)

Definition finance_line (n : Z) : string :=
  "Finance department frequency: " +:+ str_of_Z n.

(** What [main] does after the table has been obtained. *)
Definition after_load (savefig : Figure → result string) (script_file : string)
  (df : DataFrame) (w1 : world) : result unit * world :=
  match getitem df "Department" with
  | Raise e => (Raise e, w1)
  | Ok col =>
      let n := finance_count_of col in
      let w2 := World (files w1) (stdout w1 ++ [finance_line n]) in
      match plot_department_distribution savefig df with
      | Raise e => (Raise e, w2)
      | Ok img =>
          match files w1 !! script_file with
          | None => (Raise (FileNotFoundError script_file), w2)
          | Some src =>
              (Ok tt,
               World (<["employee_report.html" :=
                          report_html (escape_html (universal_newlines src))
                            (b64encode img) n]> (files w1))
                     (stdout w1 ++ [finance_line n]))
          end
      end
  end.

(** [c] is drawn from [cats] with weights [ws] at the uniform variate [u]:
    the unit interval is cut into consecutive pieces, one per category and
    as long as its weight, and [c] is the category of the piece that holds
    [u]. *)
Definition drawn_with_weights (cats : list string) (ws : list Q) (u : Q) (c : string) : Prop :=
  ∃ k, cats !! k = Some c ∧
       (Qsum (take k ws) <= u)%Q ∧ (u < Qsum (take (S k) ws))%Q.

Definition nondecreasing (l : list Q) : Prop :=
  ∀ i j ci cj, (i ≤ j)%nat → l !! i = Some ci → l !! j = Some cj → (ci <= cj)%Q.

(** The cumulative distribution that [choice] inverts. *)
Definition cdf_of (p : list Q) : list Q :=
  map (λ c, (c / List.last (cumsum p) 0)%Q) (cumsum p).

Section SynthesisVocabulary.
Context {G : Type} `{!Generator G}.

(** The three batches of draws of a fresh run, in the order of the script:
    departments, regions, scores. *)
Definition department_draws : list Q * G := draws random 100 (default_rng 7).
Definition region_draws : list Q * G := draws random 100 department_draws.2.
Definition score_draws : list Z * G := draws (integers 1 6) 100 region_draws.2.

Definition synthetic_frame (dept region : list string) (score : list Z) : DataFrame :=
  MkFrame 100
    [("Employee_ID", map CInt (range 1 101));
     ("Department", map CStr dept);
     ("Region", map CStr region);
     ("Performance_Score", map CInt score)].

End SynthesisVocabulary.

(** Lexicographic order of strings by character code, as Python compares
    them. *)
Definition str_le (s t : string) : Prop := Is_true (String.leb s t).
(** Strictly ascending lexicographic order, character by character code. *)
Definition str_lt (s t : string) : Prop := Is_true (String.ltb s t).

(** The entries before any sorting. *)
Definition count_entries (col : list cell) : list (cell * nat) :=
  map (λ c, (c, occurrences c (dropna col))) (unique (dropna col)).

(** The bar of a department and the department of a bar. *)
Definition string_entry (col : list cell) (s : string) : cell * nat :=
  (CStr s, occurrences (CStr s) col).

Definition string_label (b : cell * nat) : option string :=
  match b.1 with CStr s => Some s | _ => None end.

(** Replacing a character by its entity, one character at a time. *)
Definition escape_char (c : ascii) : string :=
  if Ascii.eqb c "&" then "&amp;"
  else if Ascii.eqb c "<" then "&lt;"
  else if Ascii.eqb c ">" then "&gt;"
  else String c "".

Fixpoint flat_map_string (f : ascii → string) (s : string) : string :=
  match s with
  | EmptyString => EmptyString
  | String c s' => f c +:+ flat_map_string f s'
  end.

(** A text is well escaped when it has no angle bracket and every ampersand
    starts one of the three entities. *)
Fixpoint well_escaped (s : string) : bool :=
  match s with
  | EmptyString => true
  | String c s' =>
      if Ascii.eqb c "<" || Ascii.eqb c ">" then false
      else if Ascii.eqb c "&"
      then (String.prefix "amp;" s' || String.prefix "lt;" s' || String.prefix "gt;" s')
           && well_escaped s'
      else well_escaped s'
  end.

Definition replace_char (c : ascii) (new : string) (x : ascii) : string :=
  if Ascii.eqb x c then new else String x "".

(** One line of the generated dataset file. *)
Definition csv_row (id : Z) (department region : string) (score : Z) : string :=
  str_of_Z id +:+ "," +:+ department +:+ "," +:+ region +:+ "," +:+
  str_of_Z score +:+ newline.

(** Decoding base64 text, to state that [b64encode] loses nothing: the
    position of a character in the alphabet, and four characters back to
    up to three bytes. *)
Fixpoint index_of (c : ascii) (s : string) (i : N) : N :=
  match s with
  | EmptyString => i
  | String x s' => if Ascii.eqb x c then i else index_of c s' (i + 1)%N
  end.

Definition b64_index (c : ascii) : N := index_of c b64_alphabet 0%N.

Fixpoint b64decode_groups (l : list ascii) : list N :=
  (match l with
   | c0 :: c1 :: c2 :: c3 :: rest =>
       let i0 := b64_index c0 in
       let i1 := b64_index c1 in
       let i2 := b64_index c2 in
       let i3 := b64_index c3 in
       if Ascii.eqb c2 "=" then [i0 * 4 + i1 / 16]
       else if Ascii.eqb c3 "=" then [i0 * 4 + i1 / 16; i1 mod 16 * 16 + i2 / 4]
       else (i0 * 4 + i1 / 16) :: (i1 mod 16 * 16 + i2 / 4) :: (i2 mod 4 * 64 + i3)
              :: b64decode_groups rest
   | _ => []
   end)%N.

Definition b64decode (text : string) : string :=
  String.string_of_list_ascii
    (map ascii_of_N (b64decode_groups (String.list_ascii_of_string text))).

(** Reading the three entities back, as a browser does when it displays
    the escaped text; [skip] counts the characters of a recognised entity
    that are still to be consumed. *)
Fixpoint unescape_from (skip : nat) (s : string) : string :=
  match s with
  | EmptyString => EmptyString
  | String c s' =>
      match skip with
      | S k => unescape_from k s'
      | O =>
          if Ascii.eqb c "&" then
            if String.prefix "amp;" s' then String "&" (unescape_from 4 s')
            else if String.prefix "lt;" s' then String "<" (unescape_from 3 s')
            else if String.prefix "gt;" s' then String ">" (unescape_from 3 s')
            else String c (unescape_from 0 s')
          else String c (unescape_from 0 s')
      end
  end.

Definition unescape_html (text : string) : string := unescape_from 0 text.

(** A character that the escaping step leaves alone. *)
Definition plain_char (c : ascii) : bool :=
  negb (Ascii.eqb c "&" || Ascii.eqb c "<" || Ascii.eqb c ">").

(** A computation that raised. *)
Definition failed {A} (r : result A) : Prop := ∃ e, r = Raise e.

(** Several runs one after the other, each with its own reader, renderer
    and script location, each starting in the world the one before left. *)
Definition run_many {G : Type} `{!Generator G}
    (runs : list ((string → result DataFrame) * (Figure → result string) * string))
    (w : world) : world :=
  foldl (λ w r, (main r.1.1 r.1.2 r.2 w).2) w runs.

(** The text of a bar label, [str(label)]. *)
Definition label_str (c : cell) : string :=
  match c with
  | CInt z => str_of_Z z
  | CStr s => s
  | CNaN => "nan"
  end.

(** * Properties *)

(** ** Sanity checks *)

Example replace_overlap : replace "aa" "b" "aaaa.a" = "bb.a".
Proof. reflexivity. Qed.

Example escape_html_sample :
  escape_html "if a<b && c>d: x = '&lt;'" =
  "if a&lt;b &amp;&amp; c&gt;d: x = '&amp;lt;'".
Proof. reflexivity. Qed.

Example b64encode_Man : b64encode "Man" = "TWFu".
Proof. reflexivity. Qed.
Example b64encode_Ma : b64encode "Ma" = "TWE=".
Proof. reflexivity. Qed.
Example b64encode_hello : b64encode "hello" = "aGVsbG8=".
Proof. reflexivity. Qed.

Example csv_field_quoted : csv_field "a,b" = dquote +:+ "a,b" +:+ dquote.
Proof. reflexivity. Qed.

Example universal_newlines_sample :
  universal_newlines
    ("a" +:+ String (chr 13) newline +:+ "b" +:+ String (chr 13) "c" +:+ newline
     +:+ String (chr 13) "")
  = "a" +:+ newline +:+ "b" +:+ newline +:+ "c" +:+ newline +:+ newline.
Proof. reflexivity. Qed.

(** A variate that equals a cumulative bound belongs to the piece on its
    right. *)
Example searchsorted_right_at_bound :
  searchsorted_right (cdf_of department_p) (18 # 100) = 1%nat ∧
  searchsorted_right (cdf_of department_p) (17 # 100) = 0%nat ∧
  searchsorted_right (cdf_of department_p) (99 # 100) = 5%nat.
Proof. by vm_compute. Qed.

Example value_counts_sample :
  sort_index (value_counts [CStr "IT"; CStr "HR"; CNaN; CStr "IT"; CStr "Finance"])
  = Ok [(CStr "Finance", 1%nat); (CStr "HR", 1%nat); (CStr "IT", 2%nat)].
Proof. by vm_compute. Qed.

Example sort_index_mixed_labels :
  sort_index (value_counts [CStr "IT"; CInt 3]) = Raise TypeError.
Proof. by vm_compute. Qed.

Example demo_loaded_run :
  stdout (main Demo.read_csv Demo.savefig Demo.script_file Demo.loaded).2
  = ["Finance department frequency: 2"].
Proof. by vm_compute. Qed.

Example demo_fresh_run_header :
  String.prefix
    ("Employee_ID,Department,Region,Performance_Score" +:+ newline +:+ "1,")
    (default "" (files (main Demo.read_csv Demo.savefig Demo.script_file Demo.fresh).2
                   !! "employees.csv"))
  = true.
Proof. by vm_compute. Qed.

(** ** Draws of the generator *)

Section Draws.
Context {G A : Type} (step : G → A * G).

Lemma draws_length n g : length (draws step n g).1 = n.
Proof.
  revert g. induction n as [|n IH]; intros g; simpl; [done|].
  destruct (step g) as [x g1]. specialize (IH g1).
  destruct (draws step n g1) as [xs g2]. simpl in *. by rewrite IH.
Qed.

Lemma draws_Forall (P : A → Prop) n g :
  (∀ g', P (step g').1) → Forall P (draws step n g).1.
Proof.
  intros HP. revert g. induction n as [|n IH]; intros g; simpl.
  { constructor. }
  pose proof (HP g) as Hx. destruct (step g) as [x g1]. specialize (IH g1).
  destruct (draws step n g1) as [xs g2]. simpl in *. by constructor.
Qed.
End Draws.

(** ** Inverting the cumulative distribution *)

Lemma nondecreasing_tail c l : nondecreasing (c :: l) → nondecreasing l.
Proof.
  intros H i j ci cj Hij Hi Hj. apply (H (S i) (S j)); simpl; [lia|done..].
Qed.

Lemma searchsorted_right_above (l : list Q) (u : Q) :
  (∀ c, c ∈ l → (u < c)%Q) → searchsorted_right l u = 0%nat.
Proof.
  intros H. unfold searchsorted_right.
  induction l as [|c l IH]; [done|].
  rewrite filter_cons. destruct (decide _) as [Hc|Hc].
  - apply Is_true_true, Qle_bool_iff in Hc.
    specialize (H c ltac:(left)). exfalso. lra.
  - apply IH. intros c' Hc'. apply H. by right.
Qed.

Lemma searchsorted_right_spec (l : list Q) (u : Q) :
  nondecreasing l →
  (∀ j c, l !! j = Some c → (j < searchsorted_right l u)%nat → (c <= u)%Q) ∧
  (∀ j c, l !! j = Some c → (searchsorted_right l u ≤ j)%nat → (u < c)%Q).
Proof.
  induction l as [|c l IH]; intros Hmono.
  { split; intros j c' Hj; by rewrite lookup_nil in Hj. }
  destruct (Qlt_le_dec u c) as [Hlt|Hle].
  - assert (searchsorted_right (c :: l) u = 0%nat) as ->.
    { apply searchsorted_right_above. intros c' Hc'.
      apply list_elem_of_lookup in Hc' as [j Hj].
      pose proof (Hmono 0%nat j c c' ltac:(lia) eq_refl Hj). lra. }
    split; intros j c' Hj Hlt'; [lia|].
    pose proof (Hmono 0%nat j c c' ltac:(lia) eq_refl Hj). lra.
  - assert (searchsorted_right (c :: l) u = S (searchsorted_right l u)) as ->.
    { unfold searchsorted_right. rewrite filter_cons.
      destruct (decide _) as [Hc|Hc]; [done|].
      exfalso. apply Hc, Is_true_true, Qle_bool_iff. done. }
    destruct (IH (nondecreasing_tail _ _ Hmono)) as [IH1 IH2].
    split; intros [|j] c' Hj Hk; simpl in Hj.
    + by injection Hj as <-.
    + apply (IH1 j); [done|lia].
    + lia.
    + apply (IH2 j); [done|lia].
Qed.

Lemma searchsorted_right_le_length (l : list Q) (u : Q) :
  (searchsorted_right l u ≤ length l)%nat.
Proof. unfold searchsorted_right. apply length_filter. Qed.

Lemma cumsum_from_lookup acc p j c :
  cumsum_from acc p !! j = Some c → (c == acc + Qsum (take (S j) p))%Q.
Proof.
  revert acc j. induction p as [|x p IH]; intros acc j Hj; simpl in *.
  { by rewrite lookup_nil in Hj. }
  destruct j as [|j]; simpl in Hj.
  - injection Hj as <-. simpl. lra.
  - apply IH in Hj. rewrite Hj. simpl. lra.
Qed.

Lemma cumsum_lookup p j c :
  cumsum p !! j = Some c → (c == Qsum (take (S j) p))%Q.
Proof.
  destruct p as [|x p]; simpl; [by rewrite lookup_nil|].
  destruct j as [|j]; simpl.
  - intros [= <-]. simpl. lra.
  - intros Hj. apply cumsum_from_lookup in Hj. rewrite Hj. simpl. lra.
Qed.

Lemma cumsum_from_length acc p : length (cumsum_from acc p) = length p.
Proof. revert acc. induction p as [|x p IH]; intros acc; simpl; [done|]. by rewrite IH. Qed.

Lemma cumsum_length p : length (cumsum p) = length p.
Proof. destruct p; simpl; [done|]. by rewrite cumsum_from_length. Qed.

Lemma Qsum_take_mono p i j :
  Forall (λ x, (0 <= x)%Q) p → (i ≤ j)%nat → (Qsum (take i p) <= Qsum (take j p))%Q.
Proof.
  intros Hp. revert i j. induction Hp as [|x p Hx Hp IH]; intros i j Hij.
  { rewrite !take_nil. simpl. lra. }
  destruct i as [|i], j as [|j]; simpl; try lia; try lra.
  - specialize (IH 0%nat j ltac:(lia)). rewrite take_0 in IH. simpl in IH. lra.
  - specialize (IH i j ltac:(lia)). lra.
Qed.

Lemma last_lookup_default (l : list Q) d :
  l ≠ [] → l !! pred (length l) = Some (List.last l d).
Proof.
  induction l as [|x l IH]; [done|]. intros _.
  destruct l as [|y l]; [done|].
  specialize (IH ltac:(done)). simpl in *. done.
Qed.

Lemma cdf_of_lookup p j c :
  p ≠ [] → (Qsum p == 1)%Q →
  cdf_of p !! j = Some c → (c == Qsum (take (S j) p))%Q.
Proof.
  intros Hne Hone Hj. unfold cdf_of in Hj.
  rewrite list_lookup_fmap in Hj.
  destruct (cumsum p !! j) as [cj|] eqn:Hcj; [|done].
  injection Hj as <-.
  assert (List.last (cumsum p) 0 == 1)%Q as Hlast.
  { assert (cumsum p ≠ []) as Hne'.
    { intros Heq. apply (f_equal length) in Heq. rewrite cumsum_length in Heq.
      by destruct p. }
    pose proof (last_lookup_default (cumsum p) 0%Q Hne') as Hl.
    apply cumsum_lookup in Hl. rewrite Hl. rewrite cumsum_length.
    rewrite take_ge; [done|]. lia. }
  apply cumsum_lookup in Hcj. rewrite Hlast, Hcj. field.
Qed.

Lemma cdf_of_length p : length (cdf_of p) = length p.
Proof. unfold cdf_of. by rewrite length_map, cumsum_length. Qed.

Lemma cdf_of_nondecreasing p :
  p ≠ [] → (Qsum p == 1)%Q → Forall (λ x, (0 <= x)%Q) p → nondecreasing (cdf_of p).
Proof.
  intros Hne Hone Hp i j ci cj Hij Hi Hj.
  apply cdf_of_lookup in Hi; [|done..]. apply cdf_of_lookup in Hj; [|done..].
  rewrite Hi, Hj. apply Qsum_take_mono; [done|lia].
Qed.

(** One uniform variate picks the category of its piece. *)
Lemma pick_drawn (a : list string) (p : list Q) (u : Q) :
  a ≠ [] → length p = length a →
  Forall (λ x, (0 <= x)%Q) p → (Qsum p == 1)%Q →
  (0 <= u)%Q → (u < 1)%Q →
  ∃ c, a !! searchsorted_right (cdf_of p) u = Some c ∧ drawn_with_weights a p u c.
Proof.
  intros Ha Hlen Hp Hone Hu0 Hu1.
  assert (p ≠ []) as Hpne by (intros ->; by destruct a).
  destruct (searchsorted_right_spec (cdf_of p) u (cdf_of_nondecreasing p Hpne Hone Hp))
    as [Hbelow Habove].
  pose proof (searchsorted_right_le_length (cdf_of p) u) as Hk.
  rewrite cdf_of_length in Hk.
  set (k := searchsorted_right (cdf_of p) u) in *.
  assert (Qsum (take k p) <= u)%Q as Hlow.
  { destruct k as [|k'] eqn:Ek; [rewrite take_0; simpl; lra|].
    destruct (lookup_lt_is_Some_2 (cdf_of p) k') as [c Hc].
    { rewrite cdf_of_length. lia. }
    pose proof (Hbelow k' c Hc ltac:(lia)) as Hle.
    apply cdf_of_lookup in Hc; [|done..]. by rewrite <- Hc. }
  assert (k < length p)%nat as Hklt.
  { destruct (decide (k < length p)%nat) as [|Hge]; [done|].
    exfalso. rewrite take_ge in Hlow by lia. rewrite Hone in Hlow. lra. }
  destruct (lookup_lt_is_Some_2 a k) as [c Hc]; [lia|].
  exists c. split; [done|]. exists k. split; [done|]. split; [done|].
  destruct (lookup_lt_is_Some_2 (cdf_of p) k) as [ck Hck].
  { rewrite cdf_of_length. lia. }
  pose proof (Habove k ck Hck ltac:(lia)) as Hlt.
  apply cdf_of_lookup in Hck; [|done..]. by rewrite <- Hck.
Qed.

Lemma take_indices_map {A} (a : list string) (f : A → nat) (R : A → string → Prop)
    (us : list A) :
  Forall (λ u, ∃ c, a !! f u = Some c ∧ R u c) us →
  ∃ xs, take_indices a (map f us) = Ok xs ∧ Forall2 R us xs.
Proof.
  induction 1 as [|u us (c & Hc & HR) _ (xs & Hxs & IH)]; simpl.
  { exists []. split; [done|constructor]. }
  rewrite Hc, Hxs. simpl. exists (c :: xs). split; [done|]. by constructor.
Qed.

Section ChoiceSpec.
Context {G : Type} `{!Generator G}.

(** [choice] accepts a well-formed distribution and returns, for every
    uniform variate it draws, the category of that variate's piece. *)
Lemma choice_spec (a : list string) (size : nat) (p : list Q) (g : G) :
  a ≠ [] → length p = length a →
  Forall (λ x, (0 <= x)%Q) p → (Qsum p == 1)%Q →
  ∃ xs, choice a size p g = Ok (xs, (draws random size g).2) ∧
        Forall2 (drawn_with_weights a p) (draws random size g).1 xs.
Proof.
  intros Ha Hlen Hp Hone.
  assert (bool_decide (a = []) && negb (Nat.eqb size 0) = false) as H1.
  { by rewrite bool_decide_eq_false_2. }
  assert (negb (Nat.eqb (length p) (length a)) = false) as H2.
  { by rewrite Hlen, Nat.eqb_refl. }
  assert (existsb (λ x, negb (Qle_bool 0 x)) p = false) as H3.
  { clear -Hp. induction Hp as [|x p Hx _ IH]; [done|]. simpl.
    rewrite IH. apply Qle_bool_iff in Hx. by rewrite Hx. }
  assert (negb (Qle_bool (Qabs (Qsum p - 1)) atol) = false) as H4.
  { apply negb_false_iff, Qle_bool_iff. rewrite Hone.
    assert (1 - 1 == 0)%Q as -> by field. simpl. unfold atol, Qle. simpl. lia. }
  unfold choice. rewrite H1, H2, H3, H4. fold (cdf_of p).
  pose proof (draws_Forall random (λ u, (0 <= u)%Q ∧ (u < 1)%Q) size g random_range) as Hus.
  destruct (draws random size g) as [us g']. simpl in *.
  destruct (take_indices_map a (searchsorted_right (cdf_of p))
              (drawn_with_weights a p) us) as (xs & Hxs & HR).
  { eapply Forall_impl; [exact Hus|].
    intros u [Hu0 Hu1]. by apply pick_drawn. }
  rewrite Hxs. simpl. by exists xs.
Qed.
End ChoiceSpec.

(** ** The synthesised table *)

Section Synthesis.
Context {G : Type} `{!Generator G}.

Lemma generate_data_spec :
  ∃ dept region,
    generate_data = Ok (synthetic_frame dept region score_draws.1) ∧
    Forall2 (drawn_with_weights departments department_p) department_draws.1 dept ∧
    Forall2 (drawn_with_weights regions region_p) region_draws.1 region.
Proof.
  destruct (choice_spec departments 100 department_p (default_rng 7))
    as (dept & Hd & HRd); [done|done| |done|].
  { unfold department_p. repeat constructor; unfold Qle; simpl; lia. }
  destruct (choice_spec regions 100 region_p department_draws.2)
    as (region & Hr & HRr); [done|done| |done|].
  { unfold region_p. repeat constructor; unfold Qle; simpl; lia. }
  exists dept, region. split; [|done].
  unfold generate_data. rewrite Hd. cbn [result_bind].
  fold department_draws. rewrite Hr. cbn [result_bind].
  fold region_draws. fold score_draws.
  pose proof (draws_length (integers 1 6) 100 region_draws.2) as Hs.
  fold score_draws in Hs.
  destruct score_draws as [score g3]. simpl in Hs |- *.
  apply Forall2_length in HRd, HRr.
  unfold department_draws in HRd. unfold region_draws in HRr.
  rewrite draws_length in HRd, HRr.
  unfold DataFrame_of_dict, synthetic_frame. cbn [forallb snd].
  rewrite !length_map, <- HRd, <- HRr, Hs.
  reflexivity.
Qed.

Lemma generate_data_ok : ∃ df, generate_data = Ok df.
Proof. destruct generate_data_spec as (d & r & H & _). eauto. Qed.
End Synthesis.

(** ** Runs of the script *)

Section Runs.
Context {G : Type} `{!Generator G}.
Variable read_csv : string → result DataFrame.
Variable savefig : Figure → result string.
Variable script_file : string.

Lemma load_existing (p s : string) (w : world) :
  files w !! p = Some s →
  load_or_generate_data read_csv p w = (read_csv s, w).
Proof.
  intros Hp. unfold load_or_generate_data, io_bind, path_exists, read_bytes, lift.
  rewrite Hp. rewrite bool_decide_eq_true_2; [|by eexists].
  cbn beta. by rewrite Hp.
Qed.

Lemma load_fresh (p : string) (w : world) :
  files w !! p = None →
  ∃ df, generate_data = Ok df ∧
        load_or_generate_data read_csv p w =
          (Ok df, World (<[p := csv_text df]> (files w)) (stdout w)).
Proof.
  intros Hp. destruct generate_data_ok as [df Hdf]. exists df. split; [done|].
  unfold load_or_generate_data, io_bind, path_exists, lift, to_csv, write_text, io_ret.
  rewrite Hp, Hdf. rewrite bool_decide_eq_false_2; [done|].
  by intros [? ?].
Qed.

(** The provider never touches a file other than the one it is given. *)
Lemma load_other_files (p q : string) (w : world) :
  p ≠ q →
  files (load_or_generate_data read_csv p w).2 !! q = files w !! q.
Proof.
  intros Hpq. destruct (files w !! p) as [s|] eqn:Hp.
  - by rewrite (load_existing p s w Hp).
  - destruct (load_fresh p w Hp) as (df & _ & ->). simpl.
    by rewrite lookup_insert_ne.
Qed.

Lemma main_unfold (w : world) :
  main read_csv savefig script_file w =
  match load_or_generate_data read_csv "employees.csv" w with
  | (Raise e, w1) => (Raise e, w1)
  | (Ok df, w1) => after_load savefig script_file df w1
  end.
Proof.
  unfold main, after_load. unfold io_bind at 1.
  destruct (load_or_generate_data read_csv "employees.csv" w) as [[df|e] w1]; [|done].
  unfold io_bind, lift, print, read_text, build_html_report, write_text, finance_line.
  destruct (getitem df "Department") as [col|e]; [|done]. simpl.
  destruct (plot_department_distribution savefig df) as [img|e]; [|done]. simpl.
  by destruct (files w1 !! script_file).
Qed.

Lemma after_load_dataset (df : DataFrame) (w1 : world) :
  files (after_load savefig script_file df w1).2 !! "employees.csv" = files w1 !! "employees.csv".
Proof.
  unfold after_load.
  destruct (getitem df "Department"); [|done].
  destruct (plot_department_distribution savefig df); [|done].
  destruct (files w1 !! script_file); [|done].
  simpl. by rewrite lookup_insert_ne.
Qed.

Lemma main_dataset (w : world) :
  files (main read_csv savefig script_file w).2 !! "employees.csv" =
  files (load_or_generate_data read_csv "employees.csv" w).2 !! "employees.csv".
Proof.
  rewrite main_unfold.
  destruct (load_or_generate_data read_csv "employees.csv" w) as [[df|e] w1]; [|done].
  apply after_load_dataset.
Qed.
End Runs.

(** ** The dataset file *)

(** C4. When a file exists at the dataset path, a run leaves its contents as
    they were, whatever the contents are and whatever the reader makes of
    them, and whether the run succeeds or fails; the provider itself writes
    nothing at all in that case. *)
Theorem existing_dataset_unchanged {G : Type} `{!Generator G}
    (read_csv : string → result DataFrame) (savefig : Figure → result string)
    (script_file : string) (w : world) (content : string) :
  files w !! "employees.csv" = Some content →
  (load_or_generate_data read_csv "employees.csv" w).2 = w ∧
  files (main read_csv savefig script_file w).2 !! "employees.csv" = Some content.
Proof.
  intros Hfile. split.
  - by rewrite (load_existing read_csv _ _ _ Hfile).
  - rewrite main_dataset. by rewrite (load_existing read_csv _ _ _ Hfile).
Qed.

Lemma existing_dataset_unchanged_witness :
  files Demo.loaded !! "employees.csv" = Some Demo.small_csv ∧
  (load_or_generate_data Demo.read_csv "employees.csv" Demo.loaded).2 = Demo.loaded ∧
  files (main Demo.read_csv Demo.savefig Demo.script_file Demo.loaded).2
    !! "employees.csv" = Some Demo.small_csv.
Proof.
  split; [reflexivity|].
  apply (existing_dataset_unchanged Demo.read_csv Demo.savefig Demo.script_file
           Demo.loaded Demo.small_csv).
  reflexivity.
Defined.

(** C1. Two runs that both start without a dataset file leave the same
    bytes in it: the file is the CSV text of the table generated from seed
    7, and does not depend on anything else in the working directory, on
    the script's location, or on how the rest of the run goes. *)
Theorem fresh_runs_write_identical_datasets {G : Type} `{!Generator G}
    (read_csv1 read_csv2 : string → result DataFrame)
    (savefig1 savefig2 : Figure → result string)
    (script_file1 script_file2 : string) (w1 w2 : world) :
  files w1 !! "employees.csv" = None →
  files w2 !! "employees.csv" = None →
  ∃ df,
    generate_data = Ok df ∧
    files (main read_csv1 savefig1 script_file1 w1).2 !! "employees.csv"
      = Some (csv_text df) ∧
    files (main read_csv2 savefig2 script_file2 w2).2 !! "employees.csv"
      = Some (csv_text df).
Proof.
  intros H1 H2.
  destruct (load_fresh read_csv1 _ w1 H1) as (df & Hdf & Hrun1).
  destruct (load_fresh read_csv2 _ w2 H2) as (df' & Hdf' & Hrun2).
  assert (df' = df) as -> by congruence.
  exists df. split; [done|].
  rewrite !main_dataset, Hrun1, Hrun2. simpl.
  by rewrite !lookup_insert_eq.
Qed.

Lemma fresh_runs_write_identical_datasets_witness :
  files Demo.fresh !! "employees.csv" = None ∧
  files (World ∅ ["earlier output"]) !! "employees.csv" = None ∧
  ∃ df,
    generate_data = Ok df ∧
    files (main Demo.read_csv Demo.savefig Demo.script_file Demo.fresh).2
      !! "employees.csv" = Some (csv_text df) ∧
    files (main (λ _, Raise TypeError) (λ _, Raise IndexError) "nowhere.py"
             (World ∅ ["earlier output"])).2
      !! "employees.csv" = Some (csv_text df).
Proof.
  split; [reflexivity|]. split; [reflexivity|].
  apply (fresh_runs_write_identical_datasets (G := Z)); reflexivity.
Defined.

(** ** Records and columns *)

Lemma field_record_at (df : DataFrame) (i : nat) (name : string) :
  field name (record_at df i) = (λ c, c !!! i) <$> assoc name (columns df).
Proof.
  unfold record_at. induction (columns df) as [|[k c] cols IH]; simpl; [done|].
  by destruct (String.eqb k name).
Qed.

Lemma length_records (df : DataFrame) : length (records df) = nrows df.
Proof. unfold records. by rewrite length_map, length_seq. Qed.

(** C2. A run without a dataset file gets a table of exactly 100 records
    whose identifiers are, in order, the integers 1, 2, ..., 100; they are
    therefore contiguous and pairwise distinct. *)
Theorem fresh_table_has_100_sequential_ids {G : Type} `{!Generator G}
    (read_csv : string → result DataFrame) (csv_path : string) (w : world) :
  files w !! csv_path = None →
  ∃ df w',
    load_or_generate_data read_csv csv_path w = (Ok df, w') ∧
    nrows df = 100%nat ∧
    length (records df) = 100%nat ∧
    getitem df "Employee_ID" = Ok (map CInt (seqZ 1 100)) ∧
    map (field "Employee_ID") (records df) = map (λ z, Some (CInt z)) (seqZ 1 100) ∧
    NoDup (map (field "Employee_ID") (records df)).
Proof.
  intros Hfile.
  destruct (load_fresh read_csv csv_path w Hfile) as (df & Hdf & Hrun).
  destruct generate_data_spec as (dept & region & Hgen & _).
  assert (df = synthetic_frame dept region score_draws.1) as -> by congruence.
  eexists _, _. split; [exact Hrun|].
  assert (map (field "Employee_ID") (records (synthetic_frame dept region score_draws.1))
          = map (λ z, Some (CInt z)) (seqZ 1 100)) as Hids.
  { unfold records. rewrite <- list_fmap_compose.
    erewrite (list_fmap_ext _ (λ i : nat, Some (map CInt (range 1 101) !!! i))).
    2:{ intros i x _. unfold compose. by rewrite field_record_at. }
    vm_compute. reflexivity. }
  split; [done|]. split; [by rewrite length_records|].
  split; [done|]. split; [done|].
  rewrite Hids. apply NoDup_fmap_2; [intros x y [=]; done|].
  apply NoDup_seqZ.
Qed.

Lemma fresh_table_has_100_sequential_ids_witness :
  files Demo.fresh !! "employees.csv" = None ∧
  ∃ df w',
    load_or_generate_data Demo.read_csv "employees.csv" Demo.fresh = (Ok df, w') ∧
    nrows df = 100%nat ∧
    length (records df) = 100%nat ∧
    getitem df "Employee_ID" = Ok (map CInt (seqZ 1 100)) ∧
    map (field "Employee_ID") (records df) = map (λ z, Some (CInt z)) (seqZ 1 100) ∧
    NoDup (map (field "Employee_ID") (records df)).
Proof.
  split; [reflexivity|].
  apply (fresh_table_has_100_sequential_ids (G := Z)). reflexivity.
Defined.

Lemma assoc_elem_of (name : string) (cols : list (string * list cell)) (c : list cell) :
  assoc name cols = Some c → (name, c) ∈ cols.
Proof.
  induction cols as [|[k c'] cols IH]; simpl; [done|].
  destruct (String.eqb_spec k name) as [->|Hne].
  - intros [= ->]. left.
  - intros Hc. right. by apply IH.
Qed.

Lemma well_formed_column_length (df : DataFrame) (name : string) (c : list cell) :
  well_formed df → assoc name (columns df) = Some c → length c = nrows df.
Proof.
  intros [Hlen _] Hc. apply assoc_elem_of in Hc.
  rewrite Forall_forall in Hlen. apply (Hlen _ Hc).
Qed.

Lemma bool_sum_count (value : string) (col : list cell) :
  bool_sum (series_eq col value) = Z.of_nat (length (filter (λ c, c = CStr value) col)).
Proof.
  unfold series_eq. induction col as [|c col IH]; [done|].
  rewrite filter_cons. simpl. rewrite IH.
  destruct (decide (c = CStr value)) as [->|Hne].
  - simpl. rewrite String.eqb_refl. simpl length. lia.
  - destruct c as [z|s|]; simpl; try lia.
    destruct (String.eqb_spec s value) as [->|]; [done|lia].
Qed.

Lemma count_by_index {B : Type} (P : B → Prop) `{!∀ x, Decision (P x)}
    (Q : cell → Prop) `{!∀ x, Decision (Q x)} (f : nat → B) (col : list cell) :
  (∀ i c, col !! i = Some c → (P (f i) ↔ Q c)) →
  length (filter P (map f (seq 0 (length col)))) = length (filter Q col).
Proof.
  revert f. induction col as [|c col IH]; intros f Hf; [done|].
  simpl length. cbn [seq map]. rewrite <- fmap_S_seq.
  change (map f (S <$> seq 0 (length col))) with (f <$> (S <$> seq 0 (length col))).
  rewrite <- list_fmap_compose. rewrite !filter_cons.
  specialize (IH (f ∘ S) (λ i c', Hf (S i) c')).
  pose proof (Hf 0%nat c eq_refl) as Hhead.
  destruct (decide (P (f 0%nat))), (decide (Q c)); simpl; try tauto;
    by rewrite <- IH.
Qed.

Lemma finance_count_records (df : DataFrame) (col : list cell) :
  well_formed df → assoc "Department" (columns df) = Some col →
  finance_count_of col =
  Z.of_nat (length (filter (λ r, field "Department" r = Some (CStr "Finance")) (records df))).
Proof.
  intros Hwf Hcol. unfold finance_count_of. rewrite bool_sum_count. f_equal.
  unfold records. rewrite <- (well_formed_column_length df _ col Hwf Hcol).
  symmetry. apply count_by_index. intros i c Hi.
  rewrite field_record_at, Hcol. simpl.
  rewrite (list_lookup_total_correct _ _ _ Hi). split; congruence.
Qed.

Lemma load_stdout {G : Type} `{!Generator G} (read_csv : string → result DataFrame)
    (p : string) (w : world) :
  stdout (load_or_generate_data read_csv p w).2 = stdout w.
Proof.
  destruct (files w !! p) as [s|] eqn:Hp.
  - by rewrite (load_existing read_csv p s w Hp).
  - by destruct (load_fresh read_csv p w Hp) as (df & _ & ->).
Qed.

(** ** The Finance count *)

(** C3. Whatever table the provider returns, the run prints exactly one
    line, [Finance department frequency: n], where [n] is the number of
    records whose department field is the string [Finance]; only a table
    without a department column makes the run print nothing. *)
Theorem printed_finance_count {G : Type} `{!Generator G}
    (read_csv : string → result DataFrame) (savefig : Figure → result string)
    (script_file : string) (w w1 : world) (df : DataFrame) :
  load_or_generate_data read_csv "employees.csv" w = (Ok df, w1) →
  well_formed df →
  stdout (main read_csv savefig script_file w).2 =
  match assoc "Department" (columns df) with
  | Some _ =>
      stdout w ++
      ["Finance department frequency: " +:+
       str_of_Z (Z.of_nat (length (filter
         (λ r, field "Department" r = Some (CStr "Finance")) (records df))))]
  | None => stdout w
  end.
Proof.
  intros Hload Hwf.
  pose proof (load_stdout read_csv "employees.csv" w) as Hout.
  rewrite main_unfold, Hload. rewrite Hload in Hout. simpl in Hout.
  unfold after_load, getitem.
  destruct (assoc "Department" (columns df)) as [col|] eqn:Hcol; [|done].
  rewrite (finance_count_records df col Hwf Hcol), <- Hout.
  destruct (plot_department_distribution savefig df); [|done].
  by destruct (files w1 !! script_file).
Qed.

Lemma printed_finance_count_witness :
  load_or_generate_data Demo.read_csv "employees.csv" Demo.loaded
    = (Ok Demo.small_frame, Demo.loaded) ∧
  well_formed Demo.small_frame ∧
  stdout (main Demo.read_csv Demo.savefig Demo.script_file Demo.loaded).2 =
    ["Finance department frequency: 2"].
Proof.
  assert (load_or_generate_data Demo.read_csv "employees.csv" Demo.loaded
          = (Ok Demo.small_frame, Demo.loaded)) as Hload by reflexivity.
  assert (well_formed Demo.small_frame) as Hwf.
  { split; [repeat constructor|]. apply (bool_decide_unpack _). reflexivity. }
  split; [exact Hload|]. split; [exact Hwf|].
  exact (printed_finance_count Demo.read_csv Demo.savefig Demo.script_file
           Demo.loaded Demo.loaded Demo.small_frame Hload Hwf).
Defined.

(** C5. A dataset file whose table has no department column makes the run
    stop with the lookup error of the aggregation step; nothing has been
    printed by then, in particular no count of zero, and no file has been
    written. *)
Theorem missing_department_is_fatal {G : Type} `{!Generator G}
    (read_csv : string → result DataFrame) (savefig : Figure → result string)
    (script_file : string) (w : world) (content : string) (df : DataFrame) :
  files w !! "employees.csv" = Some content →
  read_csv content = Ok df →
  assoc "Department" (columns df) = None →
  main read_csv savefig script_file w = (Raise (KeyError "Department"), w).
Proof.
  intros Hfile Hread Hcol.
  rewrite main_unfold, (load_existing read_csv _ _ _ Hfile), Hread.
  unfold after_load, getitem. by rewrite Hcol.
Qed.

Lemma missing_department_is_fatal_witness :
  files Demo.headless !! "employees.csv" = Some Demo.headless_csv ∧
  Demo.read_csv Demo.headless_csv = Ok Demo.headless_frame ∧
  assoc "Department" (columns Demo.headless_frame) = None ∧
  main Demo.read_csv Demo.savefig Demo.script_file Demo.headless
    = (Raise (KeyError "Department"), Demo.headless).
Proof.
  split; [reflexivity|]. split; [reflexivity|]. split; [reflexivity|].
  apply (missing_department_is_fatal Demo.read_csv Demo.savefig Demo.script_file
           Demo.headless Demo.headless_csv Demo.headless_frame); reflexivity.
Defined.

(** C9. In every run that produces the report, the integer shown in the
    report body is the integer of the printed line: one count is computed
    from the department column and handed unchanged to both. *)
Theorem report_count_is_printed_count {G : Type} `{!Generator G}
    (read_csv : string → result DataFrame) (savefig : Figure → result string)
    (script_file : string) (w w' : world) :
  main read_csv savefig script_file w = (Ok tt, w') →
  ∃ (df : DataFrame) (col : list cell) (src img : string),
    getitem df "Department" = Ok col ∧
    stdout w' =
      stdout w ++ ["Finance department frequency: " +:+ str_of_Z (finance_count_of col)] ∧
    files w' !! "employee_report.html" =
      Some (html_before_count +:+ str_of_Z (finance_count_of col) +:+
            html_before_image +:+ b64encode img +:+
            html_before_code +:+ escape_html src +:+ html_end).
Proof.
  rewrite main_unfold.
  pose proof (load_stdout read_csv "employees.csv" w) as Hout.
  destruct (load_or_generate_data read_csv "employees.csv" w) as [[df|e] w1]; [|done].
  simpl in Hout. unfold after_load.
  destruct (getitem df "Department") as [col|e] eqn:Hcol; [|done].
  destruct (plot_department_distribution savefig df) as [img|e]; [|done].
  destruct (files w1 !! script_file) as [src|]; [|done].
  intros [= <-]. exists df, col, (universal_newlines src), img. simpl.
  split; [done|]. split; [by rewrite Hout|].
  by rewrite lookup_insert_eq.
Qed.

Lemma report_count_is_printed_count_witness :
  ∃ w',
    main Demo.read_csv Demo.savefig Demo.script_file Demo.loaded = (Ok tt, w') ∧
    ∃ (df : DataFrame) (col : list cell) (src img : string),
      getitem df "Department" = Ok col ∧
      stdout w' =
        stdout Demo.loaded ++
        ["Finance department frequency: " +:+ str_of_Z (finance_count_of col)] ∧
      files w' !! "employee_report.html" =
        Some (html_before_count +:+ str_of_Z (finance_count_of col) +:+
              html_before_image +:+ b64encode img +:+
              html_before_code +:+ escape_html src +:+ html_end).
Proof.
  exists (main Demo.read_csv Demo.savefig Demo.script_file Demo.loaded).2.
  assert (main Demo.read_csv Demo.savefig Demo.script_file Demo.loaded
          = (Ok tt, (main Demo.read_csv Demo.savefig Demo.script_file Demo.loaded).2))
    as Hrun by (vm_compute; reflexivity).
  split; [exact Hrun|].
  exact (report_count_is_printed_count Demo.read_csv Demo.savefig Demo.script_file
           Demo.loaded _ Hrun).
Defined.

(** ** The order of strings and of labels *)

Lemma ascii_compare_refl (a : ascii) : Ascii.compare a a = Eq.
Proof. unfold Ascii.compare. apply N.compare_refl. Qed.

Lemma ascii_compare_lt_trans (a b c : ascii) :
  Ascii.compare a b = Lt → Ascii.compare b c = Lt → Ascii.compare a c = Lt.
Proof.
  unfold Ascii.compare. rewrite !N.compare_lt_iff. apply N.lt_trans.
Qed.

Lemma string_compare_refl (s : string) : String.compare s s = Eq.
Proof. induction s as [|a s IH]; simpl; [done|]. by rewrite ascii_compare_refl. Qed.

Lemma string_compare_lt_trans (s t u : string) :
  String.compare s t = Lt → String.compare t u = Lt → String.compare s u = Lt.
Proof.
  revert t u. induction s as [|a s IH]; intros [|b t] [|c u]; simpl; try done.
  destruct (Ascii.compare a b) eqn:Hab; try done;
    destruct (Ascii.compare b c) eqn:Hbc; try done.
  - apply Ascii.compare_eq_iff in Hab as ->. apply Ascii.compare_eq_iff in Hbc as ->.
    rewrite ascii_compare_refl. apply IH.
  - apply Ascii.compare_eq_iff in Hab as ->. by rewrite Hbc.
  - apply Ascii.compare_eq_iff in Hbc as <-. by rewrite Hab.
  - by rewrite (ascii_compare_lt_trans a b c Hab Hbc).
Qed.

Lemma str_le_cases (s t : string) : str_le s t ↔ s = t ∨ str_lt s t.
Proof.
  unfold str_le, str_lt, String.leb, String.ltb.
  destruct (String.compare s t) eqn:Hc; simpl.
  - apply String.compare_eq_iff in Hc. tauto.
  - tauto.
  - split; [done|]. intros [->|[]]. by rewrite string_compare_refl in Hc.
Qed.

Lemma str_lt_irrefl (s : string) : ¬ str_lt s s.
Proof. unfold str_lt, String.ltb. rewrite string_compare_refl. simpl. tauto. Qed.

Global Instance str_lt_trans : Transitive str_lt.
Proof.
  intros s t u. unfold str_lt, String.ltb.
  destruct (String.compare s t) eqn:Hst; try done.
  destruct (String.compare t u) eqn:Htu; try done.
  by rewrite (string_compare_lt_trans s t u Hst Htu).
Qed.

Global Instance str_le_trans : Transitive str_le.
Proof.
  intros s t u. rewrite !str_le_cases. intros [->|Hst] [->|Htu]; eauto.
  right. by etrans.
Qed.

Lemma str_le_total (s t : string) : str_le s t ∨ str_le t s.
Proof.
  unfold str_le. destruct (String.leb_total s t) as [->| ->]; simpl; tauto.
Qed.

Global Instance label_le_total : Total label_le.
Proof.
  intros [a n] [b m]. unfold label_le. simpl.
  destruct a as [x|s|], b as [y|t|]; simpl; try tauto.
  - destruct (Z.leb_spec x y), (Z.leb_spec y x); simpl; try tauto. lia.
  - apply str_le_total.
Qed.

Global Instance label_le_trans : Transitive label_le.
Proof.
  intros [a n] [b m] [c k]. unfold label_le. simpl.
  destruct a as [x|s|], b as [y|t|], c as [z|u|]; simpl; try tauto.
  - destruct (Z.leb_spec x y), (Z.leb_spec y z), (Z.leb_spec x z); simpl; try tauto. lia.
  - apply str_le_trans.
Qed.

Lemma StronglySorted_strict (l : list string) :
  StronglySorted str_le l → NoDup l → StronglySorted str_lt l.
Proof.
  induction 1 as [|s l Hl IH Hs]; intros Hnd; [constructor|].
  apply NoDup_cons in Hnd as [Hnotin Hnd].
  constructor; [by apply IH|].
  rewrite Forall_forall in Hs |- *. intros t Ht.
  destruct (proj1 (str_le_cases s t) (Hs t Ht)) as [->|]; [done|done].
Qed.

Lemma StronglySorted_str_lt_NoDup (l : list string) :
  StronglySorted str_lt l → NoDup l.
Proof.
  induction 1 as [|s l Hl IH Hs]; [constructor|].
  apply NoDup_cons. split; [|done].
  intros Hin. rewrite Forall_forall in Hs. by apply (str_lt_irrefl s), Hs.
Qed.

(** A strictly ascending list is determined by its elements. *)
Lemma str_lt_sorted_unique (l1 l2 : list string) :
  StronglySorted str_lt l1 → StronglySorted str_lt l2 →
  (∀ s, s ∈ l1 ↔ s ∈ l2) → l1 = l2.
Proof.
  intros H1 H2 Hel.
  apply (StronglySorted_unique_strong str_lt); [|done|done|].
  - intros s t _ _ Hst Hts. exfalso. apply (str_lt_irrefl s). by etrans.
  - apply NoDup_Permutation; auto using StronglySorted_str_lt_NoDup.
Qed.

(** ** Value counts *)

Lemma elem_of_unique (c : cell) (col : list cell) : c ∈ unique col ↔ c ∈ col.
Proof. unfold unique. by rewrite elem_of_reverse, elem_of_remove_dups, elem_of_reverse. Qed.

Lemma NoDup_unique (col : list cell) : NoDup (unique col).
Proof. unfold unique. rewrite reverse_Permutation. apply NoDup_remove_dups. Qed.

Lemma elem_of_dropna (c : cell) (col : list cell) : c ∈ dropna col ↔ c ≠ CNaN ∧ c ∈ col.
Proof. unfold dropna. by rewrite list_elem_of_filter. Qed.

Lemma occurrences_dropna (c : cell) (col : list cell) :
  c ≠ CNaN → occurrences c (dropna col) = occurrences c col.
Proof.
  intros Hc. unfold occurrences, dropna.
  induction col as [|x col IH]; [done|].
  rewrite !filter_cons. destruct (decide (x ≠ CNaN)) as [Hx|Hx].
  - rewrite filter_cons. destruct (decide (x = c)); simpl; by rewrite IH.
  - destruct (decide (x = c)) as [->|]; [done|]. by rewrite IH.
Qed.

Lemma value_counts_Permutation (col : list cell) : value_counts col ≡ₚ count_entries col.
Proof. unfold value_counts. apply merge_sort_Permutation. Qed.

Lemma count_entries_labels (col : list cell) : (count_entries col).*1 = unique (dropna col).
Proof.
  unfold count_entries. generalize (unique (dropna col)). intros l.
  induction l as [|c l IH]; [done|]. csimpl. by rewrite IH.
Qed.

Lemma elem_of_count_entries (b : cell * nat) (col : list cell) :
  b ∈ count_entries col ↔
  b.1 ≠ CNaN ∧ b.1 ∈ col ∧ b.2 = occurrences b.1 col.
Proof.
  unfold count_entries. rewrite list_elem_of_fmap. split.
  - intros (c & -> & Hc). simpl. apply elem_of_unique, elem_of_dropna in Hc as [Hna Hc].
    by rewrite occurrences_dropna.
  - intros (Hna & Hc & Hn). exists b.1. split.
    + destruct b as [c n]. simpl in *. by rewrite occurrences_dropna, Hn.
    + by apply elem_of_unique, elem_of_dropna.
Qed.

Lemma string_entries_labels (col : list cell) (bs : list (cell * nat)) :
  Forall (λ b, ∃ s, b = string_entry col s) bs →
  bs = string_entry col <$> omap string_label bs.
Proof.
  induction 1 as [|b bs [s ->] _ IH]; [done|]. simpl. f_equal. exact IH.
Qed.

(** Sorting the counted entries of a column without integer cells. *)
Lemma sorted_counts_of_strings (col : list cell) :
  Forall (λ c, is_int c = false) col →
  ∃ labels : list string,
    sort_index (value_counts col) = Ok (map (string_entry col) labels) ∧
    StronglySorted str_lt labels ∧
    (∀ s, s ∈ labels ↔ CStr s ∈ col).
Proof.
  intros Hcol. rewrite Forall_forall in Hcol.
  assert (∀ b, b ∈ value_counts col ↔ ∃ s, b = string_entry col s ∧ CStr s ∈ col) as Hvc.
  { intros b. rewrite value_counts_Permutation, elem_of_count_entries. split.
    - intros (Hna & Hin & Hn). destruct b as [[z|s|] n]; simpl in *; try done.
      + specialize (Hcol _ Hin). done.
      + exists s. by rewrite Hn.
    - intros (s & -> & Hs). by simpl. }
  assert (forallb is_str (value_counts col).*1 = true) as Hstr.
  { apply forallb_forall. intros c Hc. apply list_elem_of_In in Hc.
    apply list_elem_of_fmap in Hc as (b & -> & Hb).
    apply Hvc in Hb as (s & -> & _). done. }
  unfold sort_index. rewrite Hstr. simpl.
  set (bs := merge_sort label_le (value_counts col)).
  assert (bs ≡ₚ value_counts col) as Hperm by apply merge_sort_Permutation.
  assert (StronglySorted label_le bs) as Hsorted.
  { apply StronglySorted_merge_sort; apply _. }
  assert (Forall (λ b, ∃ s, b = string_entry col s) bs) as Hform.
  { apply Forall_forall. intros b Hb. rewrite Hperm in Hb.
    apply Hvc in Hb as (s & -> & _). by exists s. }
  assert (bs = string_entry col <$> omap string_label bs) as Hbs.
  { by apply string_entries_labels. }
  exists (omap string_label bs). split; [by f_equal|].
  assert (NoDup (omap string_label bs)) as Hnd.
  { apply (NoDup_fmap_1 CStr).
    assert (CStr <$> omap string_label bs = bs.*1) as ->.
    { rewrite Hbs at 2. rewrite <- list_fmap_compose. done. }
    rewrite Hperm, value_counts_Permutation, count_entries_labels.
    apply NoDup_unique. }
  split.
  - apply StronglySorted_strict; [|done].
    rewrite Hbs in Hsorted. clear -Hsorted.
    induction (omap string_label bs) as [|s l IH]; [constructor|].
    simpl in Hsorted. apply StronglySorted_inv in Hsorted as [Hl Hs].
    constructor; [by apply IH|].
    rewrite Forall_fmap in Hs. eapply Forall_impl; [exact Hs|]. by intros t Ht.
  - intros s. split.
    + intros Hs. apply (list_elem_of_fmap_2 (string_entry col)) in Hs.
      rewrite <- Hbs, Hperm in Hs. apply Hvc in Hs as (s' & [= ->] & Hs'). done.
    + intros Hs. assert (string_entry col s ∈ bs) as Hb.
      { rewrite Hperm. apply Hvc. by exists s. }
      rewrite Hbs in Hb. apply list_elem_of_fmap in Hb as (s' & [= ->] & Hs'). done.
Qed.

(** ** The chart *)

(** The chart of a table whose department column has no integer cell. *)
Lemma department_figure_of_strings (savefig : Figure → result string)
    (df : DataFrame) (col : list cell) :
  getitem df "Department" = Ok col →
  Forall (λ c, is_int c = false) col →
  ∃ (fig : Figure) (labels : list string),
    department_figure df = Ok fig ∧
    plot_department_distribution savefig df = savefig fig ∧
    bars fig = map (string_entry col) labels ∧
    StronglySorted str_lt labels ∧
    (∀ s, s ∈ labels ↔ CStr s ∈ col).
Proof.
  intros Hcol Hstr.
  destruct (sorted_counts_of_strings col Hstr) as (labels & Hsort & Hasc & Hmem).
  eexists _, labels.
  split; [|split; [|split; [|split; [exact Hasc|exact Hmem]]]].
  - unfold department_figure. rewrite Hcol. cbn [result_bind].
    rewrite Hsort. cbn [result_bind]. reflexivity.
  - unfold plot_department_distribution, department_figure.
    rewrite Hcol. cbn [result_bind]. rewrite Hsort. reflexivity.
  - reflexivity.
Qed.

(** C7. For a table whose department fields are strings (or missing), the
    chart has one bar per department that occurs, as high as the number of
    records of that department, and the bars stand from left to right in
    strictly ascending lexicographic order of their labels.  In particular,
    when the departments of the table are IT, Finance and HR, the bars are
    Finance, HR, IT. *)
Theorem chart_bars_sorted_by_department (savefig : Figure → result string)
    (df : DataFrame) (col : list cell) :
  getitem df "Department" = Ok col →
  Forall (λ c, is_int c = false) col →
  ∃ (fig : Figure) (labels : list string),
    department_figure df = Ok fig ∧
    plot_department_distribution savefig df = savefig fig ∧
    bars fig = map (λ s, (CStr s, occurrences (CStr s) col)) labels ∧
    StronglySorted str_lt labels ∧
    (∀ s, s ∈ labels ↔ CStr s ∈ col) ∧
    ((∀ s, CStr s ∈ col ↔ s ∈ ["IT"; "Finance"; "HR"]) →
     labels = ["Finance"; "HR"; "IT"]).
Proof.
  intros Hcol Hstr.
  destruct (department_figure_of_strings savefig df col Hcol Hstr)
    as (fig & labels & Hfig & Hplot & Hbars & Hasc & Hmem).
  exists fig, labels.
  split; [exact Hfig|]. split; [exact Hplot|]. split; [exact Hbars|].
  split; [exact Hasc|]. split; [exact Hmem|].
  intros Hset. apply str_lt_sorted_unique; [done| |].
  - repeat constructor.
  - intros s. rewrite Hmem, Hset, !elem_of_cons, !elem_of_nil. tauto.
Qed.

Lemma chart_bars_sorted_by_department_witness :
  getitem Demo.three_frame "Department" = Ok [CStr "IT"; CStr "Finance"; CStr "HR"] ∧
  Forall (λ c, is_int c = false) [CStr "IT"; CStr "Finance"; CStr "HR"] ∧
  ∃ fig,
    department_figure Demo.three_frame = Ok fig ∧
    bars fig = [(CStr "Finance", 1%nat); (CStr "HR", 1%nat); (CStr "IT", 1%nat)].
Proof.
  assert (getitem Demo.three_frame "Department"
          = Ok [CStr "IT"; CStr "Finance"; CStr "HR"]) as Hcol by reflexivity.
  assert (Forall (λ c, is_int c = false) [CStr "IT"; CStr "Finance"; CStr "HR"]) as Hstr
    by (repeat constructor).
  split; [exact Hcol|]. split; [exact Hstr|].
  destruct (chart_bars_sorted_by_department Demo.savefig Demo.three_frame _ Hcol Hstr)
    as (fig & labels & Hfig & _ & Hbars & _ & _ & Hthree).
  exists fig. split; [exact Hfig|].
  rewrite Hbars, Hthree; [reflexivity|].
  intros s. rewrite !elem_of_cons, !elem_of_nil.
  split; intros [H|[H|[H|[]]]]; try injection H as H; subst; tauto.
Defined.

(** C7, where the statement without the restriction to string labels
    fails.  A table whose department fields are the integers 10, 9 and 2
    gets the bars 2, 9, 10: ordered by value, while the lexicographic order
    of the label texts is 10, 2, 9.  A table that mixes a string and an
    integer gets no chart at all, the sorting of its labels raises. *)
Lemma chart_order_fails_on_integer_labels :
  getitem (MkFrame 3 [("Department", [CInt 10; CInt 9; CInt 2])]) "Department"
    = Ok [CInt 10; CInt 9; CInt 2] ∧
  department_figure (MkFrame 3 [("Department", [CInt 10; CInt 9; CInt 2])])
    = Ok (MkFigure (8, 5) [(CInt 2, 1%nat); (CInt 9, 1%nat); (CInt 10, 1%nat)]
            "Department Distribution (Employee Count)" "Department" "Count" 30 true) ∧
  map (λ b : cell * nat, label_str b.1)
      [(CInt 2, 1%nat); (CInt 9, 1%nat); (CInt 10, 1%nat)] = ["2"; "9"; "10"] ∧
  ¬ StronglySorted str_lt ["2"; "9"; "10"] ∧
  department_figure (MkFrame 2 [("Department", [CStr "IT"; CInt 3])]) = Raise TypeError ∧
  ¬ (∀ (df : DataFrame) (col : list cell),
       getitem df "Department" = Ok col →
       ∃ fig, department_figure df = Ok fig ∧
              StronglySorted str_lt (map (λ b : cell * nat, label_str b.1) (bars fig))).
Proof.
  assert (¬ StronglySorted str_lt ["2"; "9"; "10"]) as Hunsorted.
  { intros H. apply StronglySorted_inv in H as [H _].
    apply StronglySorted_inv in H as [_ H]. apply Forall_cons in H as [H _].
    exact H. }
  assert (department_figure (MkFrame 3 [("Department", [CInt 10; CInt 9; CInt 2])])
          = Ok (MkFigure (8, 5) [(CInt 2, 1%nat); (CInt 9, 1%nat); (CInt 10, 1%nat)]
                  "Department Distribution (Employee Count)" "Department" "Count" 30
                  true)) as Hfig by (by vm_compute).
  split; [reflexivity|]. split; [exact Hfig|]. split; [by vm_compute|].
  split; [exact Hunsorted|]. split; [by vm_compute|].
  intros Hall.
  destruct (Hall (MkFrame 3 [("Department", [CInt 10; CInt 9; CInt 2])])
              [CInt 10; CInt 9; CInt 2] eq_refl) as (fig & Hfig' & Hsorted).
  rewrite Hfig in Hfig'. injection Hfig' as <-. apply Hunsorted.
  by vm_compute in Hsorted |- *.
Qed.

(** ** The synthesised records *)

Lemma drawn_with_weights_elem_of cats ws u c :
  drawn_with_weights cats ws u c → c ∈ cats.
Proof. intros (k & Hk & _). by eapply list_elem_of_lookup_2. Qed.

(** The left end of a piece lies in the unit interval and in the piece. *)
Ltac piece_of_unit_interval Hk :=
  split; [vm_compute; done|];
  split; [vm_compute; done|];
  eexists; split; [exact Hk|];
  split; vm_compute; done.

(** Every category owns a piece of positive length, so it can be drawn. *)
Lemma every_department_can_be_drawn (c : string) :
  c ∈ departments →
  ∃ u, (0 <= u)%Q ∧ (u < 1)%Q ∧ drawn_with_weights departments department_p u c.
Proof.
  intros Hc. apply list_elem_of_lookup in Hc as [k Hk].
  exists (Qsum (take k department_p)).
  do 6 (destruct k as [|k]; [by piece_of_unit_interval Hk|]).
  done.
Qed.

Lemma every_region_can_be_drawn (c : string) :
  c ∈ regions →
  ∃ u, (0 <= u)%Q ∧ (u < 1)%Q ∧ drawn_with_weights regions region_p u c.
Proof.
  intros Hc. apply list_elem_of_lookup in Hc as [k Hk].
  exists (Qsum (take k region_p)).
  do 4 (destruct k as [|k]; [by piece_of_unit_interval Hk|]).
  done.
Qed.

Lemma record_at_synthetic (dept region : list string) (score : list Z)
    (i : nat) (d r : string) (s : Z) :
  (i < 100)%nat → dept !! i = Some d → region !! i = Some r → score !! i = Some s →
  record_at (synthetic_frame dept region score) i =
    [("Employee_ID", CInt (Z.of_nat i + 1)); ("Department", CStr d);
     ("Region", CStr r); ("Performance_Score", CInt s)].
Proof.
  intros Hi Hd Hr Hs. unfold record_at, synthetic_frame. cbn [columns map fst snd].
  assert ((CInt <$> range 1 101) !!! i = CInt (Z.of_nat i + 1)) as Hid.
  { apply list_lookup_total_correct. rewrite list_lookup_fmap.
    unfold range. rewrite lookup_seqZ_lt; [|lia]. simpl. do 2 f_equal. lia. }
  assert ((CStr <$> dept) !!! i = CStr d) as Hdept.
  { apply list_lookup_total_correct. by rewrite list_lookup_fmap, Hd. }
  assert ((CStr <$> region) !!! i = CStr r) as Hregion.
  { apply list_lookup_total_correct. by rewrite list_lookup_fmap, Hr. }
  assert ((CInt <$> score) !!! i = CInt s) as Hscore.
  { apply list_lookup_total_correct. by rewrite list_lookup_fmap, Hs. }
  change (map CInt (range 1 101)) with (CInt <$> range 1 101).
  change (map CStr dept) with (CStr <$> dept).
  change (map CStr region) with (CStr <$> region).
  change (map CInt score) with (CInt <$> score).
  by rewrite Hid, Hdept, Hregion, Hscore.
Qed.

(** C8. In the synthesised table, record [i] carries the identifier [i+1],
    the department that the [i]-th uniform variate of the first batch draws
    from the six departments with weights 0.18, 0.12, 0.22, 0.20, 0.18,
    0.10, the region that the [i]-th variate of the second batch draws from
    the four regions with weights 0.30, 0.25, 0.25, 0.20, and as score the
    [i]-th draw of [integers(1, 6)], an integer from 1 to 5. *)
Theorem synthesized_fields_follow_distributions {G : Type} `{!Generator G} (i : nat) :
  (i < 100)%nat →
  ∃ (df : DataFrame) (d r : string) (s : Z) (u_d u_r : Q),
    generate_data = Ok df ∧
    records df !! i =
      Some [("Employee_ID", CInt (Z.of_nat i + 1)); ("Department", CStr d);
            ("Region", CStr r); ("Performance_Score", CInt s)] ∧
    (draws random 100 (default_rng 7)).1 !! i = Some u_d ∧
    drawn_with_weights
      ["Finance"; "HR"; "IT"; "Operations"; "Sales"; "Marketing"]
      [18 # 100; 12 # 100; 22 # 100; 20 # 100; 18 # 100; 10 # 100]%Q u_d d ∧
    d ∈ ["Finance"; "HR"; "IT"; "Operations"; "Sales"; "Marketing"] ∧
    (draws random 100 (draws random 100 (default_rng 7)).2).1 !! i = Some u_r ∧
    drawn_with_weights
      ["North"; "South"; "East"; "West"]
      [3 # 10; 25 # 100; 25 # 100; 2 # 10]%Q u_r r ∧
    r ∈ ["North"; "South"; "East"; "West"] ∧
    (draws (integers 1 6) 100
       (draws random 100 (draws random 100 (default_rng 7)).2).2).1 !! i = Some s ∧
    1 ≤ s ≤ 5.
Proof.
  intros Hi.
  destruct generate_data_spec as (dept & region & Hgen & Hd & Hr).
  destruct (lookup_lt_is_Some_2 department_draws.1 i) as [u_d Hud].
  { unfold department_draws. by rewrite draws_length. }
  destruct (lookup_lt_is_Some_2 region_draws.1 i) as [u_r Hur].
  { unfold region_draws. by rewrite draws_length. }
  destruct (lookup_lt_is_Some_2 score_draws.1 i) as [s Hs].
  { unfold score_draws. by rewrite draws_length. }
  destruct (Forall2_lookup_l _ _ _ _ _ Hd Hud) as (d & Hdi & Hdd).
  destruct (Forall2_lookup_l _ _ _ _ _ Hr Hur) as (r & Hri & Hrr).
  exists (synthetic_frame dept region score_draws.1), d, r, s, u_d, u_r.
  split; [exact Hgen|]. split.
  { unfold records. rewrite list_lookup_fmap, lookup_seq_lt by done.
    by apply (f_equal Some), record_at_synthetic. }
  split; [exact Hud|]. split; [exact Hdd|].
  split; [exact (drawn_with_weights_elem_of _ _ _ _ Hdd)|].
  split; [exact Hur|]. split; [exact Hrr|].
  split; [exact (drawn_with_weights_elem_of _ _ _ _ Hrr)|].
  split; [exact Hs|].
  pose proof (draws_Forall (integers 1 6) (λ z, 1 ≤ z < 6) 100 region_draws.2
                (λ g, integers_range 1 6 g ltac:(lia))) as Hrange.
  pose proof (Forall_lookup_1 _ _ _ _ Hrange Hs). simpl in *. lia.
Qed.

Lemma synthesized_fields_follow_distributions_witness :
  (0 < 100)%nat ∧
  ∃ (df : DataFrame) (d r : string) (s : Z) (u_d u_r : Q),
    generate_data (G := Z) = Ok df ∧
    records df !! 0%nat =
      Some [("Employee_ID", CInt (Z.of_nat 0 + 1)); ("Department", CStr d);
            ("Region", CStr r); ("Performance_Score", CInt s)] ∧
    (draws random 100 (default_rng (G := Z) 7)).1 !! 0%nat = Some u_d ∧
    drawn_with_weights
      ["Finance"; "HR"; "IT"; "Operations"; "Sales"; "Marketing"]
      [18 # 100; 12 # 100; 22 # 100; 20 # 100; 18 # 100; 10 # 100]%Q u_d d ∧
    d ∈ ["Finance"; "HR"; "IT"; "Operations"; "Sales"; "Marketing"] ∧
    (draws random 100 (draws random 100 (default_rng (G := Z) 7)).2).1 !! 0%nat
      = Some u_r ∧
    drawn_with_weights
      ["North"; "South"; "East"; "West"]
      [3 # 10; 25 # 100; 25 # 100; 2 # 10]%Q u_r r ∧
    r ∈ ["North"; "South"; "East"; "West"] ∧
    (draws (integers 1 6) 100
       (draws random 100 (draws random 100 (default_rng (G := Z) 7)).2).2).1 !! 0%nat
      = Some s ∧
    1 ≤ s ≤ 5.
Proof.
  split; [lia|].
  apply (synthesized_fields_follow_distributions (G := Z) 0). lia.
Defined.

(** ** Fresh runs *)

(** C10. A run without a dataset file gets a table with a department
    column of 100 cells, so the aggregation step finds its column and the
    count is printed; if such a run fails at all, the failure is the
    renderer's or the missing script text, not a missing column. *)
Theorem fresh_run_has_department_column {G : Type} `{!Generator G}
    (read_csv : string → result DataFrame) (savefig : Figure → result string)
    (script_file : string) (w : world) :
  files w !! "employees.csv" = None →
  ∃ (df : DataFrame) (w1 : world) (col : list cell),
    load_or_generate_data read_csv "employees.csv" w = (Ok df, w1) ∧
    getitem df "Department" = Ok col ∧
    length col = 100%nat ∧
    stdout (main read_csv savefig script_file w).2 =
      stdout w ++ ["Finance department frequency: " +:+ str_of_Z (finance_count_of col)] ∧
    (∀ e, (main read_csv savefig script_file w).1 = Raise e →
          (∃ fig, savefig fig = Raise e) ∨ e = FileNotFoundError script_file).
Proof.
  intros Hfile.
  destruct (load_fresh read_csv _ w Hfile) as (df & Hdf & Hrun).
  destruct generate_data_spec as (dept & region & Hgen & Hd & _).
  assert (df = synthetic_frame dept region score_draws.1) as -> by congruence.
  apply Forall2_length in Hd. unfold department_draws in Hd.
  rewrite draws_length in Hd.
  eexists _, _, (map CStr dept). split; [exact Hrun|].
  split; [reflexivity|]. split; [by rewrite length_map|].
  destruct (department_figure_of_strings savefig
              (synthetic_frame dept region score_draws.1) (map CStr dept))
    as (fig & labels & _ & Hplot & _); [reflexivity| |].
  { apply Forall_fmap, Forall_true. intros s. reflexivity. }
  rewrite main_unfold, Hrun. unfold after_load.
  change (getitem (synthetic_frame dept region score_draws.1) "Department")
    with (Ok (A := list cell) (map CStr dept)).
  cbv beta iota zeta. rewrite Hplot.
  destruct (savefig fig) as [img|e'] eqn:Hfig.
  - simpl. destruct (_ !! script_file) as [src|]; simpl.
    + split; [done|]. intros e [=].
    + split; [done|]. intros e [= <-]. by right.
  - simpl. split; [done|]. intros e [= <-]. left. by exists fig.
Qed.

Lemma fresh_run_has_department_column_witness :
  files Demo.fresh !! "employees.csv" = None ∧
  ∃ (df : DataFrame) (w1 : world) (col : list cell),
    load_or_generate_data Demo.read_csv "employees.csv" Demo.fresh = (Ok df, w1) ∧
    getitem df "Department" = Ok col ∧
    length col = 100%nat ∧
    stdout (main Demo.read_csv Demo.savefig Demo.script_file Demo.fresh).2 =
      stdout Demo.fresh ++
      ["Finance department frequency: " +:+ str_of_Z (finance_count_of col)] ∧
    (∀ e, (main Demo.read_csv Demo.savefig Demo.script_file Demo.fresh).1 = Raise e →
          (∃ fig, Demo.savefig fig = Raise e) ∨ e = FileNotFoundError Demo.script_file).
Proof.
  split; [reflexivity|].
  apply (fresh_run_has_department_column (G := Z)). reflexivity.
Defined.

(** ** Escaping *)

Lemma replace_single (c : ascii) (new s : string) :
  replace (String c "") new s = flat_map_string (replace_char c new) s.
Proof.
  unfold replace. induction s as [|x s IH]; [done|].
  cbn [replace_from String.prefix String.length flat_map_string].
  rewrite <- IH. unfold replace_char.
  assert (String.prefix "" s = true) as Hempty by (by destruct s).
  destruct (ascii_dec c x) as [->|Hne].
  - by rewrite Ascii.eqb_refl, Hempty.
  - destruct (Ascii.eqb_spec x c) as [->|_]; done.
Qed.

Lemma string_app_cons (x : ascii) (a b : string) : String x a +:+ b = String x (a +:+ b).
Proof. reflexivity. Qed.

Lemma string_app_nil (b : string) : "" +:+ b = b.
Proof. reflexivity. Qed.

Lemma string_app_assoc (a b c : string) : (a +:+ b) +:+ c = a +:+ (b +:+ c).
Proof.
  induction a as [|x a IH]; [done|].
  change (String x ((a +:+ b) +:+ c) = String x (a +:+ (b +:+ c))).
  by rewrite IH.
Qed.

Lemma flat_map_string_app (f : ascii → string) (a b : string) :
  flat_map_string f (a +:+ b) = flat_map_string f a +:+ flat_map_string f b.
Proof.
  induction a as [|x a IH]; [done|].
  change (f x +:+ flat_map_string f (a +:+ b)
          = (f x +:+ flat_map_string f a) +:+ flat_map_string f b).
  by rewrite IH, string_app_assoc.
Qed.

Lemma flat_map_string_compose (f : ascii → string) (g : ascii → string) (s : string) :
  flat_map_string g (flat_map_string f s)
  = flat_map_string (λ c, flat_map_string g (f c)) s.
Proof.
  induction s as [|x s IH]; [done|].
  cbn [flat_map_string]. by rewrite flat_map_string_app, IH.
Qed.

Lemma flat_map_string_ext (f g : ascii → string) (s : string) :
  (∀ c, f c = g c) → flat_map_string f s = flat_map_string g s.
Proof.
  intros Hfg. induction s as [|x s IH]; [done|].
  cbn [flat_map_string]. by rewrite Hfg, IH.
Qed.

(** What the three replacements do to one character. *)
Lemma escape_steps_char (c : ascii) :
  flat_map_string (replace_char ">" "&gt;")
    (flat_map_string (replace_char "<" "&lt;") (replace_char "&" "&amp;" c))
  = escape_char c.
Proof.
  unfold escape_char. unfold replace_char at 3.
  destruct (Ascii.eqb c "&"); [reflexivity|].
  cbn [flat_map_string]. unfold replace_char at 2.
  destruct (Ascii.eqb c "<"); [reflexivity|].
  rewrite string_app_cons, string_app_nil.
  cbn [flat_map_string]. unfold replace_char.
  destruct (Ascii.eqb c ">"); reflexivity.
Qed.

Lemma escape_html_each (s : string) : escape_html s = flat_map_string escape_char s.
Proof.
  unfold escape_html.
  change "&" with (String "&"%char ""). change "<" with (String "<"%char "").
  change ">" with (String ">"%char "").
  rewrite !replace_single, !flat_map_string_compose.
  apply flat_map_string_ext. intros c.
  rewrite <- flat_map_string_compose. apply escape_steps_char.
Qed.

(** An entity in front of a text does not change whether it is well escaped. *)
Lemma well_escaped_entity (s : string) :
  well_escaped ("&amp;" +:+ s) = well_escaped s ∧
  well_escaped ("&lt;" +:+ s) = well_escaped s ∧
  well_escaped ("&gt;" +:+ s) = well_escaped s.
Proof. destruct s; repeat split; reflexivity. Qed.

Lemma well_escaped_each (s : string) : well_escaped (flat_map_string escape_char s) = true.
Proof.
  induction s as [|c s IH]; [done|]. cbn [flat_map_string]. unfold escape_char at 1.
  destruct (well_escaped_entity (flat_map_string escape_char s)) as (Ha & Hl & Hg).
  destruct (Ascii.eqb c "&") eqn:Hamp; [by rewrite Ha|].
  destruct (Ascii.eqb c "<") eqn:Hlt; [by rewrite Hl|].
  destruct (Ascii.eqb c ">") eqn:Hgt; [by rewrite Hg|].
  rewrite string_app_cons, string_app_nil.
  cbn [well_escaped]. by rewrite Hamp, Hlt, Hgt.
Qed.

Lemma well_escaped_no_angle (s : string) (c : ascii) :
  well_escaped s = true → c ∈ String.list_ascii_of_string s →
  c ≠ "<"%char ∧ c ≠ ">"%char.
Proof.
  induction s as [|x s IH]; [by intros _ ?%elem_of_nil|].
  cbn [well_escaped String.list_ascii_of_string].
  destruct (Ascii.eqb_spec x "<") as [|Hlt]; [done|].
  destruct (Ascii.eqb_spec x ">") as [|Hgt]; [done|].
  cbn [orb]. intros Hs [->|Hin]%elem_of_cons; [done|].
  apply IH; [|done].
  destruct (Ascii.eqb x "&"); [|done].
  by apply andb_true_iff in Hs as [_ ?].
Qed.

(** C6. The escaping step is the three replacements in the order
    ampersand, less-than, greater-than.  Its result is the text in which
    every ampersand, less-than and greater-than of the source has become
    its entity and every other character is kept (so no entity is escaped
    twice); it contains no angle bracket, and each of its ampersands starts
    one of the three entities. *)
Theorem escaping_leaves_no_markup (code_text : string) :
  escape_html code_text
    = replace ">" "&gt;" (replace "<" "&lt;" (replace "&" "&amp;" code_text)) ∧
  escape_html code_text = flat_map_string escape_char code_text ∧
  well_escaped (escape_html code_text) = true ∧
  ("<"%char ∉ String.list_ascii_of_string (escape_html code_text)) ∧
  (">"%char ∉ String.list_ascii_of_string (escape_html code_text)).
Proof.
  assert (well_escaped (escape_html code_text) = true) as Hwell.
  { rewrite escape_html_each. apply well_escaped_each. }
  split; [reflexivity|]. split; [apply escape_html_each|]. split; [exact Hwell|].
  split; intros Hin; destruct (well_escaped_no_angle _ _ Hwell Hin); done.
Qed.

(** * Further properties of the script *)

(** ** Which files a run touches *)

Section RunFrames.
Context {G : Type} `{!Generator G}.
Variable read_csv : string → result DataFrame.
Variable savefig : Figure → result string.
Variable script_file : string.

Lemma after_load_other_files (df : DataFrame) (w1 : world) (q : string) :
  q ≠ "employee_report.html" →
  files (after_load savefig script_file df w1).2 !! q = files w1 !! q.
Proof.
  intros Hq. unfold after_load.
  destruct (getitem df "Department"); [|done].
  destruct (plot_department_distribution savefig df); [|done].
  destruct (files w1 !! script_file); [|done].
  simpl. by rewrite lookup_insert_ne.
Qed.

Lemma after_load_failure_files (df : DataFrame) (w1 w' : world) (e : exn) :
  after_load savefig script_file df w1 = (Raise e, w') → files w' = files w1.
Proof.
  unfold after_load.
  destruct (getitem df "Department"); [|by intros [= _ <-]].
  destruct (plot_department_distribution savefig df); [|by intros [= _ <-]].
  destruct (files w1 !! script_file); [done|by intros [= _ <-]].
Qed.

(** The run once the table and its department column are known. *)
Lemma main_with_column (w w1 : world) (df : DataFrame) (col : list cell) :
  load_or_generate_data read_csv "employees.csv" w = (Ok df, w1) →
  getitem df "Department" = Ok col →
  main read_csv savefig script_file w =
  let printed := stdout w ++ [finance_line (finance_count_of col)] in
  match plot_department_distribution savefig df with
  | Raise e => (Raise e, World (files w1) printed)
  | Ok img =>
      match files w1 !! script_file with
      | None => (Raise (FileNotFoundError script_file), World (files w1) printed)
      | Some src =>
          (Ok tt,
           World (<["employee_report.html" :=
                      report_html (escape_html (universal_newlines src)) (b64encode img)
                        (finance_count_of col)]> (files w1)) printed)
      end
  end.
Proof.
  intros Hload Hcol.
  pose proof (load_stdout read_csv "employees.csv" w) as Hout.
  rewrite Hload in Hout. simpl in Hout.
  rewrite main_unfold, Hload. unfold after_load. rewrite Hcol, Hout.
  destruct (plot_department_distribution savefig df); [|done].
  by destruct (files w1 !! script_file).
Qed.

End RunFrames.

(** X1. A run that fails before it comes to write the report, that is in
    the provider, in the lookup of the department column, in the renderer
    or in reading the script, ends with an exception and leaves the report
    file as it found it. *)
Theorem failure_before_report_keeps_report {G : Type} `{!Generator G}
    (read_csv : string → result DataFrame) (savefig : Figure → result string)
    (script_file : string) (w : world) :
  failed (load_or_generate_data read_csv "employees.csv" w).1 ∨
  (∃ df w1,
     load_or_generate_data read_csv "employees.csv" w = (Ok df, w1) ∧
     (failed (getitem df "Department") ∨
      failed (plot_department_distribution savefig df) ∨
      files w1 !! script_file = None)) →
  failed (main read_csv savefig script_file w).1 ∧
  files (main read_csv savefig script_file w).2 !! "employee_report.html"
    = files w !! "employee_report.html".
Proof.
  intros Hfail. rewrite main_unfold.
  pose proof (load_other_files read_csv "employees.csv" "employee_report.html" w
                ltac:(done)) as Hload.
  destruct Hfail as [[e He]|(df & w1 & Hrun & Hstage)].
  - destruct (load_or_generate_data read_csv "employees.csv" w) as [[df|e1] w1];
      simpl in *; [done|]. split; [by exists e1|done].
  - rewrite Hrun in Hload |- *. simpl in Hload. unfold after_load.
    destruct (getitem df "Department") as [col|e1]; [|split; [by exists e1|done]].
    destruct (plot_department_distribution savefig df) as [img|e2];
      [|split; [by exists e2|done]].
    destruct Hstage as [[e He]|[[e He]|Hscript]]; [done|done|].
    rewrite Hscript. split; [by eexists|done].
Qed.

Lemma failure_before_report_keeps_report_witness :
  (failed (load_or_generate_data Demo.read_csv "employees.csv"
             (World (<["employee_report.html" := "old report"]> (files Demo.headless))
                [])).1 ∨
   (∃ df w1,
      load_or_generate_data Demo.read_csv "employees.csv"
        (World (<["employee_report.html" := "old report"]> (files Demo.headless)) [])
      = (Ok df, w1) ∧
      (failed (getitem df "Department") ∨
       failed (plot_department_distribution Demo.savefig df) ∨
       files w1 !! Demo.script_file = None))) ∧
  failed (main Demo.read_csv Demo.savefig Demo.script_file
            (World (<["employee_report.html" := "old report"]> (files Demo.headless))
               [])).1 ∧
  files (main Demo.read_csv Demo.savefig Demo.script_file
           (World (<["employee_report.html" := "old report"]> (files Demo.headless))
              [])).2 !! "employee_report.html"
  = Some "old report".
Proof.
  assert (failed (load_or_generate_data Demo.read_csv "employees.csv"
             (World (<["employee_report.html" := "old report"]> (files Demo.headless))
                [])).1 ∨
          (∃ df w1,
             load_or_generate_data Demo.read_csv "employees.csv"
               (World (<["employee_report.html" := "old report"]> (files Demo.headless))
                  [])
             = (Ok df, w1) ∧
             (failed (getitem df "Department") ∨
              failed (plot_department_distribution Demo.savefig df) ∨
              files w1 !! Demo.script_file = None))) as Hstage.
  { right. exists Demo.headless_frame. eexists. split; [reflexivity|].
    left. exists (KeyError "Department"). reflexivity. }
  split; [exact Hstage|].
  destruct (failure_before_report_keeps_report Demo.read_csv Demo.savefig
              Demo.script_file _ Hstage) as [Hfailed Hreport].
  split; [exact Hfailed|]. rewrite Hreport. reflexivity.
Defined.

(** X2. A run reads and writes nothing but its two files: every path other
    than the dataset and the report holds after the run what it held
    before, whether the run succeeds or fails. *)
Theorem main_touches_only_its_two_files {G : Type} `{!Generator G}
    (read_csv : string → result DataFrame) (savefig : Figure → result string)
    (script_file : string) (w : world) (q : string) :
  q ≠ "employees.csv" → q ≠ "employee_report.html" →
  files (main read_csv savefig script_file w).2 !! q = files w !! q.
Proof.
  intros Hcsv Hreport. rewrite main_unfold.
  pose proof (load_other_files read_csv "employees.csv" q w ltac:(done)) as Hload.
  destruct (load_or_generate_data read_csv "employees.csv" w) as [[df|e1] w1];
    simpl in Hload; [|done].
  by rewrite after_load_other_files.
Qed.

Lemma main_touches_only_its_two_files_witness :
  Demo.script_file ≠ "employees.csv" ∧ Demo.script_file ≠ "employee_report.html" ∧
  files (main Demo.read_csv Demo.savefig Demo.script_file Demo.fresh).2
    !! Demo.script_file = files Demo.fresh !! Demo.script_file.
Proof.
  split; [done|]. split; [done|].
  apply (main_touches_only_its_two_files (G := Z)); done.
Defined.

(** X3. Once a dataset file exists, any number of further runs, with
    whatever readers, renderers and script locations, and whether they
    succeed or fail, leave it byte for byte: it is never generated again. *)
Theorem existing_dataset_survives_runs {G : Type} `{!Generator G}
    (runs : list ((string → result DataFrame) * (Figure → result string) * string))
    (w : world) (content : string) :
  files w !! "employees.csv" = Some content →
  files (run_many runs w) !! "employees.csv" = Some content.
Proof.
  revert w. induction runs as [|[[read_csv savefig] script_file] runs IH];
    intros w Hfile; [done|].
  cbn [run_many foldl]. apply IH. cbn [fst snd].
  by rewrite main_dataset, (load_existing read_csv _ _ _ Hfile).
Qed.

Lemma existing_dataset_survives_runs_witness :
  files Demo.loaded !! "employees.csv" = Some Demo.small_csv ∧
  files (run_many
           [(Demo.read_csv, Demo.savefig, Demo.script_file);
            ((λ _, Raise TypeError) : string → result DataFrame, Demo.savefig,
             "missing.py");
            (Demo.read_csv, (λ _, Raise IndexError) : Figure → result string,
             Demo.script_file)]
           Demo.loaded) !! "employees.csv"
  = Some Demo.small_csv.
Proof.
  split; [reflexivity|].
  apply (existing_dataset_survives_runs (G := Z)). reflexivity.
Defined.

(** ** How a run ends *)

(** X4. When a first run, in a directory without a dataset, ends
    normally, the world it leaves is exactly this: the generated dataset
    written, the count line printed, and the report built from that count,
    the rendered image and the escaped text of the script with its line
    ends read as line feeds; nothing else has changed. *)
Theorem successful_first_run_world {G : Type} `{!Generator G}
    (read_csv : string → result DataFrame) (savefig : Figure → result string)
    (script_file : string) (w w' : world) (src : string) :
  files w !! "employees.csv" = None →
  files w !! script_file = Some src →
  main read_csv savefig script_file w = (Ok tt, w') →
  ∃ (df : DataFrame) (col : list cell) (img : string),
    generate_data = Ok df ∧
    getitem df "Department" = Ok col ∧
    plot_department_distribution savefig df = Ok img ∧
    w' = World (<["employee_report.html" :=
                    report_html (escape_html (universal_newlines src)) (b64encode img)
                      (finance_count_of col)]>
                  (<["employees.csv" := csv_text df]> (files w)))
               (stdout w ++ [finance_line (finance_count_of col)]).
Proof.
  intros Hfile Hscript Hmain.
  destruct (load_fresh read_csv _ w Hfile) as (df & Hdf & Hrun).
  destruct generate_data_spec as (dept & region & Hgen & _).
  assert (df = synthetic_frame dept region score_draws.1) as -> by congruence.
  rewrite (main_with_column read_csv savefig script_file w _ _ _ Hrun eq_refl) in Hmain.
  cbv zeta in Hmain.
  destruct (plot_department_distribution savefig _) as [img|e] eqn:Hplot; [|done].
  simpl files in Hmain. rewrite lookup_insert_ne, Hscript in Hmain by congruence.
  injection Hmain as <-.
  eexists _, (map CStr dept), img.
  split; [exact Hdf|]. split; [reflexivity|]. split; [exact Hplot|]. reflexivity.
Qed.

Lemma successful_first_run_world_witness :
  files Demo.fresh !! "employees.csv" = None ∧
  files Demo.fresh !! Demo.script_file = Some Demo.script_text ∧
  main Demo.read_csv Demo.savefig Demo.script_file Demo.fresh
    = (Ok tt, (main Demo.read_csv Demo.savefig Demo.script_file Demo.fresh).2) ∧
  ∃ (df : DataFrame) (col : list cell) (img : string),
    generate_data = Ok df ∧
    getitem df "Department" = Ok col ∧
    plot_department_distribution Demo.savefig df = Ok img ∧
    (main Demo.read_csv Demo.savefig Demo.script_file Demo.fresh).2
    = World (<["employee_report.html" :=
                 report_html (escape_html (universal_newlines Demo.script_text))
                   (b64encode img) (finance_count_of col)]>
               (<["employees.csv" := csv_text df]> (files Demo.fresh)))
            (stdout Demo.fresh ++ [finance_line (finance_count_of col)]).
Proof.
  assert (main Demo.read_csv Demo.savefig Demo.script_file Demo.fresh
          = (Ok tt, (main Demo.read_csv Demo.savefig Demo.script_file Demo.fresh).2))
    as Hrun by (vm_compute; reflexivity).
  split; [reflexivity|]. split; [reflexivity|]. split; [exact Hrun|].
  exact (successful_first_run_world (G := Z) Demo.read_csv Demo.savefig
           Demo.script_file Demo.fresh _ Demo.script_text eq_refl eq_refl Hrun).
Defined.

(** X5. When a run on an existing dataset ends normally, the reader has
    accepted the file, the table has a department column, the renderer has
    returned an image, and the world differs from the one before in two
    things only: the count line is printed, and the report holds the new
    document, whatever it held before. *)
Theorem successful_run_on_existing_dataset_world {G : Type} `{!Generator G}
    (read_csv : string → result DataFrame) (savefig : Figure → result string)
    (script_file : string) (w w' : world) (content src : string) :
  files w !! "employees.csv" = Some content →
  files w !! script_file = Some src →
  main read_csv savefig script_file w = (Ok tt, w') →
  ∃ (df : DataFrame) (col : list cell) (img : string),
    read_csv content = Ok df ∧
    getitem df "Department" = Ok col ∧
    plot_department_distribution savefig df = Ok img ∧
    w' = World (<["employee_report.html" :=
                    report_html (escape_html (universal_newlines src)) (b64encode img)
                      (finance_count_of col)]> (files w))
               (stdout w ++ [finance_line (finance_count_of col)]).
Proof.
  intros Hfile Hscript Hmain.
  pose proof (load_existing read_csv _ _ _ Hfile) as Hload.
  destruct (read_csv content) as [df|e] eqn:Hread.
  2:{ by rewrite main_unfold, Hload in Hmain. }
  destruct (getitem df "Department") as [col|e] eqn:Hcol.
  2:{ rewrite main_unfold, Hload in Hmain. unfold after_load in Hmain.
      by rewrite Hcol in Hmain. }
  rewrite (main_with_column read_csv savefig script_file w _ _ _ Hload Hcol) in Hmain.
  cbv zeta in Hmain.
  destruct (plot_department_distribution savefig df) as [img|e] eqn:Hplot; [|done].
  rewrite Hscript in Hmain. injection Hmain as <-.
  by exists df, col, img.
Qed.

Lemma successful_run_on_existing_dataset_world_witness :
  files Demo.loaded !! "employees.csv" = Some Demo.small_csv ∧
  files Demo.loaded !! Demo.script_file = Some Demo.script_text ∧
  main Demo.read_csv Demo.savefig Demo.script_file Demo.loaded
    = (Ok tt, (main Demo.read_csv Demo.savefig Demo.script_file Demo.loaded).2) ∧
  ∃ (df : DataFrame) (col : list cell) (img : string),
    Demo.read_csv Demo.small_csv = Ok df ∧
    getitem df "Department" = Ok col ∧
    plot_department_distribution Demo.savefig df = Ok img ∧
    (main Demo.read_csv Demo.savefig Demo.script_file Demo.loaded).2
    = World (<["employee_report.html" :=
                 report_html (escape_html (universal_newlines Demo.script_text))
                   (b64encode img) (finance_count_of col)]> (files Demo.loaded))
            (stdout Demo.loaded ++ [finance_line (finance_count_of col)]).
Proof.
  assert (main Demo.read_csv Demo.savefig Demo.script_file Demo.loaded
          = (Ok tt, (main Demo.read_csv Demo.savefig Demo.script_file Demo.loaded).2))
    as Hrun by (vm_compute; reflexivity).
  split; [reflexivity|]. split; [reflexivity|]. split; [exact Hrun|].
  exact (successful_run_on_existing_dataset_world (G := Z) Demo.read_csv Demo.savefig
           Demo.script_file Demo.loaded _ Demo.small_csv Demo.script_text
           eq_refl eq_refl Hrun).
Defined.

(** X6. When the renderer fails on a first run, its exception ends the run
    unchanged; by then the dataset has been generated and saved and the
    count printed, and the report has not been touched. *)
Theorem renderer_failure_on_first_run {G : Type} `{!Generator G}
    (read_csv : string → result DataFrame) (savefig : Figure → result string)
    (script_file : string) (w : world) (e : exn) :
  files w !! "employees.csv" = None →
  (∀ fig, savefig fig = Raise e) →
  ∃ (df : DataFrame) (col : list cell),
    generate_data = Ok df ∧
    getitem df "Department" = Ok col ∧
    main read_csv savefig script_file w =
      (Raise e,
       World (<["employees.csv" := csv_text df]> (files w))
             (stdout w ++ [finance_line (finance_count_of col)])).
Proof.
  intros Hfile Hrender.
  destruct (load_fresh read_csv _ w Hfile) as (df & Hdf & Hrun).
  destruct generate_data_spec as (dept & region & Hgen & _).
  assert (df = synthetic_frame dept region score_draws.1) as -> by congruence.
  destruct (department_figure_of_strings savefig
              (synthetic_frame dept region score_draws.1) (map CStr dept))
    as (fig & labels & _ & Hplot & _); [reflexivity| |].
  { apply Forall_fmap, Forall_true. intros s. reflexivity. }
  rewrite Hrender in Hplot.
  eexists _, (map CStr dept). split; [exact Hdf|]. split; [reflexivity|].
  rewrite (main_with_column read_csv savefig script_file w _ _ _ Hrun eq_refl).
  cbv zeta. by rewrite Hplot.
Qed.

Lemma renderer_failure_on_first_run_witness :
  files Demo.fresh !! "employees.csv" = None ∧
  (∀ fig : Figure, (λ _ : Figure, Raise (A := string) TypeError) fig = Raise TypeError) ∧
  ∃ (df : DataFrame) (col : list cell),
    generate_data = Ok df ∧
    getitem df "Department" = Ok col ∧
    main Demo.read_csv (λ _, Raise TypeError) Demo.script_file Demo.fresh =
      (Raise TypeError,
       World (<["employees.csv" := csv_text df]> (files Demo.fresh))
             (stdout Demo.fresh ++ [finance_line (finance_count_of col)])).
Proof.
  split; [reflexivity|]. split; [reflexivity|].
  apply (renderer_failure_on_first_run (G := Z) Demo.read_csv (λ _, Raise TypeError)
           Demo.script_file Demo.fresh TypeError); reflexivity.
Defined.

(** X7. When the script cannot read its own text, the run ends with the
    file-not-found error for that path, after the count has been printed
    and without writing the report. *)
Theorem unreadable_script_is_fatal {G : Type} `{!Generator G}
    (read_csv : string → result DataFrame) (savefig : Figure → result string)
    (script_file : string) (w w1 : world) (df : DataFrame) (col : list cell)
    (img : string) :
  load_or_generate_data read_csv "employees.csv" w = (Ok df, w1) →
  getitem df "Department" = Ok col →
  plot_department_distribution savefig df = Ok img →
  files w1 !! script_file = None →
  main read_csv savefig script_file w =
    (Raise (FileNotFoundError script_file),
     World (files w1) (stdout w ++ [finance_line (finance_count_of col)])).
Proof.
  intros Hload Hcol Hplot Hscript.
  rewrite (main_with_column read_csv savefig script_file w _ _ _ Hload Hcol).
  cbv zeta. by rewrite Hplot, Hscript.
Qed.

Lemma unreadable_script_is_fatal_witness :
  load_or_generate_data Demo.read_csv "employees.csv"
    (World {[ "employees.csv" := Demo.small_csv ]} [])
  = (Ok Demo.small_frame, World {[ "employees.csv" := Demo.small_csv ]} []) ∧
  getitem Demo.small_frame "Department"
    = Ok [CStr "IT"; CStr "Finance"; CStr "HR"; CStr "Finance"; CStr "finance"] ∧
  plot_department_distribution Demo.savefig Demo.small_frame
    = Ok "Finance=2;HR=1;IT=1;finance=1" ∧
  files (World {[ "employees.csv" := Demo.small_csv ]} []) !! "missing.py" = None ∧
  main Demo.read_csv Demo.savefig "missing.py"
    (World {[ "employees.csv" := Demo.small_csv ]} [])
  = (Raise (FileNotFoundError "missing.py"),
     World {[ "employees.csv" := Demo.small_csv ]} ["Finance department frequency: 2"]).
Proof.
  split; [reflexivity|]. split; [reflexivity|]. split; [by vm_compute|].
  split; [reflexivity|].
  rewrite (unreadable_script_is_fatal (G := Z) Demo.read_csv Demo.savefig "missing.py"
             (World {[ "employees.csv" := Demo.small_csv ]} [])
             (World {[ "employees.csv" := Demo.small_csv ]} [])
             Demo.small_frame
             [CStr "IT"; CStr "Finance"; CStr "HR"; CStr "Finance"; CStr "finance"]
             "Finance=2;HR=1;IT=1;finance=1");
    [by vm_compute|reflexivity|reflexivity|by vm_compute|reflexivity].
Defined.

(** X8. When the reader rejects an existing dataset file, its exception
    ends the run at once: nothing is printed and no file is written. *)
Theorem unreadable_dataset_is_fatal {G : Type} `{!Generator G}
    (read_csv : string → result DataFrame) (savefig : Figure → result string)
    (script_file : string) (w : world) (content : string) (e : exn) :
  files w !! "employees.csv" = Some content →
  read_csv content = Raise e →
  main read_csv savefig script_file w = (Raise e, w).
Proof.
  intros Hfile Hread.
  by rewrite main_unfold, (load_existing read_csv _ _ _ Hfile), Hread.
Qed.

Lemma unreadable_dataset_is_fatal_witness :
  files (World {[ "employees.csv" := "a,b" +:+ newline +:+ "1" +:+ newline ]} [])
    !! "employees.csv" = Some ("a,b" +:+ newline +:+ "1" +:+ newline) ∧
  Demo.read_csv ("a,b" +:+ newline +:+ "1" +:+ newline)
    = Raise (LibraryError "Error tokenizing data") ∧
  main Demo.read_csv Demo.savefig Demo.script_file
    (World {[ "employees.csv" := "a,b" +:+ newline +:+ "1" +:+ newline ]} [])
  = (Raise (LibraryError "Error tokenizing data"),
     World {[ "employees.csv" := "a,b" +:+ newline +:+ "1" +:+ newline ]} []).
Proof.
  split; [reflexivity|]. split; [reflexivity|].
  apply (unreadable_dataset_is_fatal (G := Z) Demo.read_csv Demo.savefig
           Demo.script_file _ ("a,b" +:+ newline +:+ "1" +:+ newline)); reflexivity.
Defined.

(** ** The generated table and its file *)

Section GeneratedTable.
Context {G : Type} `{!Generator G}.

Lemma generate_data_columns :
  ∃ (dept region : list string) (score : list Z),
    generate_data = Ok (synthetic_frame dept region score) ∧
    length dept = 100%nat ∧ length region = 100%nat ∧ length score = 100%nat ∧
    Forall (λ d, d ∈ departments) dept ∧
    Forall (λ r, r ∈ regions) region ∧
    Forall (λ s, 1 ≤ s ≤ 5) score.
Proof.
  destruct generate_data_spec as (dept & region & Hgen & Hd & Hr).
  exists dept, region, score_draws.1. split; [exact Hgen|].
  pose proof (Forall2_length _ _ _ Hd) as Hld.
  pose proof (Forall2_length _ _ _ Hr) as Hlr.
  unfold department_draws in Hld. unfold region_draws in Hlr.
  rewrite draws_length in Hld, Hlr.
  split; [done|]. split; [done|].
  split; [unfold score_draws; by rewrite draws_length|].
  split; [|split].
  - eapply Forall2_Forall_r; [exact Hd|]. apply Forall_true.
    intros u d. apply drawn_with_weights_elem_of.
  - eapply Forall2_Forall_r; [exact Hr|]. apply Forall_true.
    intros u r. apply drawn_with_weights_elem_of.
  - pose proof (draws_Forall (integers 1 6) (λ z, 1 ≤ z < 6) 100 region_draws.2
                  (λ g, integers_range 1 6 g ltac:(lia))) as Hrange.
    eapply Forall_impl; [exact Hrange|]. intros z. simpl. lia.
Qed.

End GeneratedTable.

Lemma csv_field_plain (s : string) :
  s ∈ departments ∨ s ∈ regions → csv_field s = s.
Proof.
  intros [H|H];
    repeat (apply elem_of_cons in H as [->|H]; [reflexivity|]);
    by apply elem_of_nil in H.
Qed.

Lemma csv_text_synthetic (dept region : list string) (score : list Z) :
  length dept = 100%nat → length region = 100%nat → length score = 100%nat →
  Forall (λ d, d ∈ departments) dept → Forall (λ r, r ∈ regions) region →
  csv_text (synthetic_frame dept region score) =
    "Employee_ID,Department,Region,Performance_Score" +:+ newline +:+
    String.concat ""
      (map (λ i : nat, csv_row (Z.of_nat i + 1) (dept !!! i) (region !!! i) (score !!! i))
           (seq 0 100)).
Proof.
  intros Hld Hlr Hls Hd Hr. unfold csv_text.
  assert (csv_line (map csv_field (columns (synthetic_frame dept region score)).*1)
          = "Employee_ID,Department,Region,Performance_Score" +:+ newline) as ->
    by reflexivity.
  rewrite string_app_assoc. do 2 f_equal.
  unfold records. cbn [nrows synthetic_frame].
  change (map ?f (map ?g ?l)) with (f <$> (g <$> l)).
  rewrite <- list_fmap_compose. f_equal.
  apply list_fmap_ext. intros i x Hx. apply lookup_seq in Hx as [-> Hi].
  destruct (lookup_lt_is_Some_2 dept i) as [d Hdi]; [lia|].
  destruct (lookup_lt_is_Some_2 region i) as [r Hri]; [lia|].
  destruct (lookup_lt_is_Some_2 score i) as [s Hsi]; [lia|].
  unfold compose. cbn [Nat.add].
  rewrite (record_at_synthetic dept region score i d r s Hi Hdi Hri Hsi).
  rewrite (list_lookup_total_correct _ _ _ Hdi), (list_lookup_total_correct _ _ _ Hri),
    (list_lookup_total_correct _ _ _ Hsi).
  cbn [map snd cell_text]. unfold csv_line, csv_row. cbn [join].
  rewrite (csv_field_plain d), (csv_field_plain r).
  - by rewrite !string_app_assoc.
  - right. exact (Forall_lookup_1 (λ r, r ∈ regions) region i r Hr Hri).
  - left. exact (Forall_lookup_1 (λ d, d ∈ departments) dept i d Hd Hdi).
Qed.

(** X9. The generated table has exactly the four columns Employee_ID,
    Department, Region, Performance_Score, in this order; each holds 100
    cells, none of them missing, and no two columns share a name. *)
Theorem generated_table_schema {G : Type} `{!Generator G} :
  ∃ df : DataFrame,
    generate_data = Ok df ∧
    well_formed df ∧
    (columns df).*1 = ["Employee_ID"; "Department"; "Region"; "Performance_Score"] ∧
    Forall (λ kc, length kc.2 = 100%nat ∧ Forall (λ c, c ≠ CNaN) kc.2) (columns df).
Proof.
  destruct generate_data_columns as (dept & region & score & Hgen & Hld & Hlr & Hls & _).
  exists (synthetic_frame dept region score). split; [exact Hgen|].
  assert (∀ {A} (f : A → cell) (l : list A),
            (∀ x, f x ≠ CNaN) → Forall (λ c, c ≠ CNaN) (map f l)) as Hcells.
  { intros A f l Hf. apply Forall_fmap, Forall_true. exact Hf. }
  split; [|split; [reflexivity|]].
  - split.
    + unfold synthetic_frame. cbn [columns nrows].
      do 4 (apply Forall_cons_2; [cbn [snd]; rewrite length_map; done|]).
      apply Forall_nil_2.
    + apply (bool_decide_unpack _). reflexivity.
  - unfold synthetic_frame. cbn [columns].
    do 4 (apply Forall_cons_2;
          [split; [cbn [snd]; rewrite length_map; done|apply Hcells; done]|]).
    apply Forall_nil_2.
Qed.

(** X10. The dataset file a first run writes is the header line
    [Employee_ID,Department,Region,Performance_Score] followed by exactly
    100 lines [id,department,region,score], for id = 1, ..., 100 in this
    order, with a department and a region of the two category lists and a
    score from 1 to 5; no field is quoted and every line ends in a line
    feed. *)
Theorem fresh_dataset_layout {G : Type} `{!Generator G}
    (read_csv : string → result DataFrame) (csv_path : string) (w : world) :
  files w !! csv_path = None →
  ∃ (dept region : list string) (score : list Z),
    length dept = 100%nat ∧ length region = 100%nat ∧ length score = 100%nat ∧
    Forall (λ d, d ∈ departments) dept ∧
    Forall (λ r, r ∈ regions) region ∧
    Forall (λ s, 1 ≤ s ≤ 5) score ∧
    files (load_or_generate_data read_csv csv_path w).2 !! csv_path =
      Some ("Employee_ID,Department,Region,Performance_Score" +:+ newline +:+
            String.concat ""
              (map (λ i : nat,
                      csv_row (Z.of_nat i + 1) (dept !!! i) (region !!! i) (score !!! i))
                   (seq 0 100))).
Proof.
  intros Hfile.
  destruct (load_fresh read_csv csv_path w Hfile) as (df & Hdf & Hrun).
  destruct generate_data_columns
    as (dept & region & score & Hgen & Hld & Hlr & Hls & Hd & Hr & Hs).
  assert (df = synthetic_frame dept region score) as -> by congruence.
  exists dept, region, score.
  split; [done|]. split; [done|]. split; [done|].
  split; [done|]. split; [done|]. split; [done|].
  rewrite Hrun. simpl. rewrite lookup_insert_eq. f_equal.
  by apply csv_text_synthetic.
Qed.

Lemma fresh_dataset_layout_witness :
  files Demo.fresh !! "employees.csv" = None ∧
  ∃ (dept region : list string) (score : list Z),
    length dept = 100%nat ∧ length region = 100%nat ∧ length score = 100%nat ∧
    Forall (λ d, d ∈ departments) dept ∧
    Forall (λ r, r ∈ regions) region ∧
    Forall (λ s, 1 ≤ s ≤ 5) score ∧
    files (load_or_generate_data Demo.read_csv "employees.csv" Demo.fresh).2
      !! "employees.csv" =
      Some ("Employee_ID,Department,Region,Performance_Score" +:+ newline +:+
            String.concat ""
              (map (λ i : nat,
                      csv_row (Z.of_nat i + 1) (dept !!! i) (region !!! i) (score !!! i))
                   (seq 0 100))).
Proof.
  split; [reflexivity|].
  apply (fresh_dataset_layout (G := Z)). reflexivity.
Defined.

(** ** The bars of the chart *)

Lemma sort_index_Permutation (s bs : list (cell * nat)) :
  sort_index s = Ok bs → bs ≡ₚ s.
Proof.
  unfold sort_index. destruct (_ || _); [|done].
  intros [= <-]. apply merge_sort_Permutation.
Qed.

Lemma department_figure_bars (df : DataFrame) (col : list cell) (fig : Figure) :
  getitem df "Department" = Ok col →
  department_figure df = Ok fig →
  bars fig ≡ₚ count_entries col.
Proof.
  intros Hcol. unfold department_figure. rewrite Hcol. cbn [result_bind].
  destruct (sort_index (value_counts col)) as [bs|e] eqn:Hsort; [|done].
  cbn [result_bind]. intros [= <-]. cbn [bars].
  rewrite (sort_index_Permutation _ _ Hsort). apply value_counts_Permutation.
Qed.

Lemma occurrences_cons (c x : cell) (l : list cell) :
  occurrences c (x :: l) = ((if decide (x = c) then 1 else 0) + occurrences c l)%nat.
Proof. unfold occurrences. rewrite filter_cons. by destruct (decide (x = c)). Qed.

Lemma occurrences_pos (c : cell) (l : list cell) :
  (0 < occurrences c l)%nat ↔ c ∈ l.
Proof.
  induction l as [|x l IH].
  - split; [by inversion 1|by intros ?%elem_of_nil].
  - rewrite occurrences_cons, elem_of_cons.
    destruct (decide (x = c)) as [->|Hne]; [split; [by left|lia]|].
    simpl. rewrite IH. split; [by right|]. by intros [->|].
Qed.

Lemma sum_indicator (x : cell) (u : list cell) :
  NoDup u → x ∈ u →
  sum_list_with (λ c, if decide (x = c) then 1%nat else 0%nat) u = 1%nat.
Proof.
  induction 1 as [|c u Hc Hu IH]; [by intros ?%elem_of_nil|].
  intros Hx. cbn [sum_list_with]. destruct (decide (x = c)) as [->|Hne].
  - assert (sum_list_with (λ c0, if decide (c = c0) then 1%nat else 0%nat) u = 0%nat) as ->;
      [|done].
    clear IH Hu Hx. induction u as [|y u IH]; [done|].
    cbn [sum_list_with]. rewrite decide_False.
    + apply IH. intros ?. apply Hc. by right.
    + intros ->. apply Hc. left.
  - apply elem_of_cons in Hx as [->|Hx]; [done|]. by rewrite IH.
Qed.

(** Counting every distinct value counts every cell once. *)
Lemma sum_occurrences (l u : list cell) :
  NoDup u → (∀ x, x ∈ l → x ∈ u) →
  sum_list_with (λ c, occurrences c l) u = length l.
Proof.
  intros Hu. induction l as [|x l IH]; intros Hl.
  - clear. induction u as [|c u IH]; [done|]. cbn [sum_list_with]. by rewrite IH.
  - assert (sum_list_with (λ c, occurrences c (x :: l)) u
            = (sum_list_with (λ c, if decide (x = c) then 1 else 0) u
               + sum_list_with (λ c, occurrences c l) u)%nat) as ->.
    { clear. induction u as [|c u IH]; [done|].
      cbn [sum_list_with]. rewrite IH, occurrences_cons. lia. }
    rewrite sum_indicator, IH; [done| | |].
    + intros y Hy. apply Hl. by right.
    + done.
    + apply Hl. left.
Qed.

Lemma sum_count_entries (col : list cell) :
  sum_list_with snd (count_entries col) = length (dropna col).
Proof.
  unfold count_entries.
  assert (∀ u, sum_list_with snd (map (λ c, (c, occurrences c (dropna col))) u)
               = sum_list_with (λ c, occurrences c (dropna col)) u) as ->.
  { induction u as [|c u IH]; [done|]. cbn [map sum_list_with snd]. by rewrite IH. }
  apply sum_occurrences; [apply NoDup_unique|].
  intros x. by rewrite elem_of_unique.
Qed.

(** X11. Whenever the chart is drawn, its bars account for the records
    exactly: each bar stands for a department value that occurs in the
    table and is as high as the number of its records, no bar stands for a
    missing value, no value has two bars, and the heights add up to the
    number of records that have a department. *)
Theorem bars_account_for_records (df : DataFrame) (col : list cell) (fig : Figure) :
  getitem df "Department" = Ok col →
  department_figure df = Ok fig →
  Forall (λ b, b.1 ≠ CNaN ∧ b.1 ∈ col ∧ b.2 = occurrences b.1 col ∧ (0 < b.2)%nat)
         (bars fig) ∧
  (∀ c, c ∈ col → c ≠ CNaN → (c, occurrences c col) ∈ bars fig) ∧
  NoDup (bars fig).*1 ∧
  sum_list_with snd (bars fig) = length (dropna col).
Proof.
  intros Hcol Hfig.
  pose proof (department_figure_bars df col fig Hcol Hfig) as Hperm.
  split; [|split; [|split]].
  - apply Forall_forall. intros b Hb. rewrite Hperm in Hb.
    apply elem_of_count_entries in Hb as (Hna & Hin & Hn).
    split; [done|]. split; [done|]. split; [done|].
    rewrite Hn. by apply occurrences_pos.
  - intros c Hc Hna. rewrite Hperm. by apply elem_of_count_entries.
  - rewrite Hperm, count_entries_labels. apply NoDup_unique.
  - rewrite Hperm. apply sum_count_entries.
Qed.

Lemma bars_account_for_records_witness :
  getitem Demo.small_frame "Department"
    = Ok [CStr "IT"; CStr "Finance"; CStr "HR"; CStr "Finance"; CStr "finance"] ∧
  department_figure Demo.small_frame
    = Ok (MkFigure (8, 5)
            [(CStr "Finance", 2%nat); (CStr "HR", 1%nat); (CStr "IT", 1%nat);
             (CStr "finance", 1%nat)]
            "Department Distribution (Employee Count)" "Department" "Count" 30 true) ∧
  sum_list_with snd
    [(CStr "Finance", 2%nat); (CStr "HR", 1%nat); (CStr "IT", 1%nat);
     (CStr "finance", 1%nat)]
  = length (dropna [CStr "IT"; CStr "Finance"; CStr "HR"; CStr "Finance";
                    CStr "finance"]).
Proof.
  assert (department_figure Demo.small_frame
          = Ok (MkFigure (8, 5)
                  [(CStr "Finance", 2%nat); (CStr "HR", 1%nat); (CStr "IT", 1%nat);
                   (CStr "finance", 1%nat)]
                  "Department Distribution (Employee Count)" "Department" "Count" 30 true))
    as Hfig by (by vm_compute).
  split; [reflexivity|]. split; [exact Hfig|].
  exact (proj2 (proj2 (proj2
           (bars_account_for_records Demo.small_frame _ _ eq_refl Hfig)))).
Defined.

(** X12. The chart and the printed line agree: whenever the chart is
    drawn, it has a bar labelled [Finance] exactly when the printed count is
    positive, and that bar is as high as the printed count. *)
Theorem finance_bar_is_printed_count (df : DataFrame) (col : list cell) (fig : Figure)
    (n : nat) :
  getitem df "Department" = Ok col →
  department_figure df = Ok fig →
  (CStr "Finance", n) ∈ bars fig ↔ (0 < n)%nat ∧ Z.of_nat n = finance_count_of col.
Proof.
  intros Hcol Hfig.
  rewrite (department_figure_bars df col fig Hcol Hfig), elem_of_count_entries.
  unfold finance_count_of. rewrite bool_sum_count.
  fold (occurrences (CStr "Finance") col). cbn [fst snd]. split.
  - intros (_ & Hin & ->). split; [by apply occurrences_pos|done].
  - intros [Hpos Hn]. apply Nat2Z.inj in Hn. subst n.
    split; [done|]. split; [by apply occurrences_pos|done].
Qed.

Lemma finance_bar_is_printed_count_witness :
  getitem Demo.small_frame "Department"
    = Ok [CStr "IT"; CStr "Finance"; CStr "HR"; CStr "Finance"; CStr "finance"] ∧
  department_figure Demo.small_frame
    = Ok (MkFigure (8, 5)
            [(CStr "Finance", 2%nat); (CStr "HR", 1%nat); (CStr "IT", 1%nat);
             (CStr "finance", 1%nat)]
            "Department Distribution (Employee Count)" "Department" "Count" 30 true) ∧
  ((CStr "Finance", 2%nat) ∈
     [(CStr "Finance", 2%nat); (CStr "HR", 1%nat); (CStr "IT", 1%nat);
      (CStr "finance", 1%nat)]
   ↔ (0 < 2)%nat ∧
     Z.of_nat 2 = finance_count_of
                    [CStr "IT"; CStr "Finance"; CStr "HR"; CStr "Finance"; CStr "finance"]).
Proof.
  assert (department_figure Demo.small_frame
          = Ok (MkFigure (8, 5)
                  [(CStr "Finance", 2%nat); (CStr "HR", 1%nat); (CStr "IT", 1%nat);
                   (CStr "finance", 1%nat)]
                  "Department Distribution (Employee Count)" "Department" "Count" 30 true))
    as Hfig by (by vm_compute).
  split; [reflexivity|]. split; [exact Hfig|].
  exact (finance_bar_is_printed_count Demo.small_frame _ _ 2%nat eq_refl Hfig).
Defined.

(** ** The embedded image *)

Lemma list_ind3 {A} (P : list A → Prop) :
  P [] → (∀ a, P [a]) → (∀ a b, P [a; b]) →
  (∀ a b c l, P l → P (a :: b :: c :: l)) →
  ∀ l, P l.
Proof.
  intros H0 H1 H2 H3 l.
  assert (P l ∧ (∀ a, P (a :: l)) ∧ (∀ a b, P (a :: b :: l))) as [? _]; [|done].
  induction l as [|x l (IH0 & IH1 & IH2)]; [by auto|].
  split; [apply IH1|]. split; [intros a; apply IH2|]. intros a b. by apply H3.
Qed.

Lemma b64_groups_triple (a b c : N) (l : list N) :
  b64_groups (a :: b :: c :: l) =
  String (b64_char (a / 4)) (String (b64_char (a mod 4 * 16 + b / 16))
    (String (b64_char (b mod 16 * 4 + c / 64))
      (String (b64_char (c mod 64)) (b64_groups l)))).
Proof. reflexivity. Qed.

Lemma string_length_list (s : string) :
  String.length s = length (String.list_ascii_of_string s).
Proof. induction s as [|c s IH]; simpl; [done|]. by rewrite IH. Qed.

Lemma b64_groups_length (l : list N) :
  String.length (b64_groups l) = (4 * ((length l + 2) / 3))%nat.
Proof.
  induction l as [| | |a b c l IH] using list_ind3; try reflexivity.
  rewrite b64_groups_triple. cbn [String.length length]. rewrite IH.
  replace (S (S (S (length l))) + 2)%nat with ((length l + 2) + 1 * 3)%nat by lia.
  rewrite Nat.div_add by done. lia.
Qed.

(** X13. The base64 text of the image is four characters for every three
    bytes, the last group padded: its length is 4 * ceil(n / 3) for an
    image of n bytes, and it is empty for the empty image only. *)
Theorem b64encode_length (bytes : string) :
  String.length (b64encode bytes) = (4 * ((String.length bytes + 2) / 3))%nat ∧
  (b64encode bytes = "" ↔ bytes = "").
Proof.
  assert (String.length (b64encode bytes)
          = (4 * ((String.length bytes + 2) / 3))%nat) as Hlen.
  { unfold b64encode. by rewrite b64_groups_length, length_map, string_length_list. }
  split; [exact Hlen|]. split.
  - intros Hempty. rewrite Hempty in Hlen. destruct bytes as [|c bytes]; [done|].
    exfalso. cbn [String.length] in Hlen.
    assert (1 ≤ (S (String.length bytes) + 2) / 3)%nat; [|lia].
    apply Nat.div_le_lower_bound; lia.
  - by intros ->.
Qed.

Lemma string_get_elem_of (n : nat) (s : string) (c : ascii) :
  String.get n s = Some c → c ∈ String.list_ascii_of_string s.
Proof.
  revert n. induction s as [|x s IH]; intros n; [done|].
  destruct n as [|n]; simpl.
  - intros [= ->]. left.
  - intros Hc. right. by eapply IH.
Qed.

Lemma b64_char_cases (n : N) :
  b64_char n ∈ String.list_ascii_of_string b64_alphabet ∨ b64_char n = "="%char.
Proof.
  unfold b64_char. destruct (String.get (N.to_nat n) b64_alphabet) as [c|] eqn:Hc.
  - left. by eapply string_get_elem_of.
  - by right.
Qed.

Lemma b64_groups_alphabet (l : list N) :
  Forall (λ c, c ∈ String.list_ascii_of_string b64_alphabet ∨ c = "="%char)
         (String.list_ascii_of_string (b64_groups l)).
Proof.
  induction l as [|a|a b|a b c l IH] using list_ind3.
  - constructor.
  - cbn [b64_groups String.list_ascii_of_string].
    repeat (apply Forall_cons_2; [first [apply b64_char_cases | by right]|]).
    apply Forall_nil_2.
  - cbn [b64_groups String.list_ascii_of_string].
    repeat (apply Forall_cons_2; [first [apply b64_char_cases | by right]|]).
    apply Forall_nil_2.
  - rewrite b64_groups_triple. cbn [String.list_ascii_of_string].
    do 4 (apply Forall_cons_2; [apply b64_char_cases|]). exact IH.
Qed.

(** X14. The base64 text consists of letters, digits, [+], [/] and the
    padding [=] only; it contains no double quote, angle bracket or
    ampersand, so it cannot end the attribute or the element that embeds
    it in the report. *)
Theorem b64encode_alphabet (bytes : string) :
  Forall (λ c, c ∈ String.list_ascii_of_string b64_alphabet ∨ c = "="%char)
         (String.list_ascii_of_string (b64encode bytes)) ∧
  Forall (λ c, c ≠ chr 34 ∧ c ≠ "<"%char ∧ c ≠ ">"%char ∧ c ≠ "&"%char)
         (String.list_ascii_of_string (b64encode bytes)).
Proof.
  pose proof (b64_groups_alphabet
                (map N_of_ascii (String.list_ascii_of_string bytes))) as Halpha.
  fold (b64encode bytes) in Halpha. split; [exact Halpha|].
  eapply Forall_impl; [exact Halpha|]. intros c [Hc| ->].
  - assert (Forall (λ c, c ≠ chr 34 ∧ c ≠ "<"%char ∧ c ≠ ">"%char ∧ c ≠ "&"%char)
                   (String.list_ascii_of_string b64_alphabet)) as Hsafe.
    { apply (bool_decide_unpack _). by vm_compute. }
    rewrite Forall_forall in Hsafe. by apply Hsafe.
  - done.
Qed.

Lemma b64_index_char (n : N) :
  (n < 64)%N → b64_index (b64_char n) = n ∧ Ascii.eqb (b64_char n) "=" = false.
Proof.
  intros Hn.
  assert (forallb (λ k, N.eqb (b64_index (b64_char k)) k
                        && negb (Ascii.eqb (b64_char k) "="))
                  (map N.of_nat (seq 0 64)) = true) as Hall by (by vm_compute).
  rewrite forallb_forall in Hall.
  specialize (Hall n). rewrite andb_true_iff, N.eqb_eq, negb_true_iff in Hall.
  apply Hall, in_map_iff. exists (N.to_nat n). split; [lia|].
  apply in_seq. lia.
Qed.

Ltac sextet_arith :=
  zify; Z.to_euclidean_division_equations; lia.

Lemma sextets_bounded (a b c : N) :
  (a < 256)%N → (b < 256)%N → (c < 256)%N →
  (a / 4 < 64 ∧ a mod 4 * 16 + b / 16 < 64 ∧ b mod 16 * 4 + c / 64 < 64 ∧ c mod 64 < 64
   ∧ a mod 4 * 16 < 64 ∧ b mod 16 * 4 < 64)%N.
Proof. intros Ha Hb Hc. repeat split; sextet_arith. Qed.

Lemma sextets_decode (a b c : N) :
  (a < 256)%N → (b < 256)%N → (c < 256)%N →
  (a / 4 * 4 + (a mod 4 * 16 + b / 16) / 16 = a ∧
   (a mod 4 * 16 + b / 16) mod 16 * 16 + (b mod 16 * 4 + c / 64) / 4 = b ∧
   (b mod 16 * 4 + c / 64) mod 4 * 64 + c mod 64 = c)%N.
Proof. intros Ha Hb Hc. repeat split; sextet_arith. Qed.

Lemma b64decode_groups_encode (l : list N) :
  Forall (λ x, (x < 256)%N) l →
  b64decode_groups (String.list_ascii_of_string (b64_groups l)) = l.
Proof.
  induction l as [|a|a b|a b c l IH] using list_ind3; intros Hl.
  - reflexivity.
  - apply Forall_cons in Hl as [Ha _].
    destruct (sextets_bounded a 0 0 Ha) as (H0 & H1 & _); [done..|].
    destruct (sextets_decode a 0 0 Ha) as (Da & _); [done..|].
    rewrite N.Div0.div_0_l, N.add_0_r in H1, Da.
    cbn [b64_groups String.list_ascii_of_string b64decode_groups].
    cbn [Ascii.eqb Bool.eqb]. cbv zeta.
    destruct (b64_index_char _ H0) as [-> _]. destruct (b64_index_char _ H1) as [-> _].
    by rewrite Da.
  - apply Forall_cons in Hl as [Ha Hl]. apply Forall_cons in Hl as [Hb _].
    destruct (sextets_bounded a b 0 Ha Hb) as (H0 & H1 & H2 & _); [done|].
    destruct (sextets_decode a b 0 Ha Hb) as (Da & Db & _); [done|].
    rewrite N.Div0.div_0_l, N.add_0_r in H2, Db.
    cbn [b64_groups String.list_ascii_of_string b64decode_groups]. cbv zeta.
    destruct (b64_index_char _ H0) as [-> _]. destruct (b64_index_char _ H1) as [-> _].
    destruct (b64_index_char _ H2) as [-> ->].
    cbn [Ascii.eqb Bool.eqb]. by rewrite Da, Db.
  - apply Forall_cons in Hl as [Ha Hl]. apply Forall_cons in Hl as [Hb Hl].
    apply Forall_cons in Hl as [Hc Hl].
    destruct (sextets_bounded a b c Ha Hb Hc) as (H0 & H1 & H2 & H3 & _).
    destruct (sextets_decode a b c Ha Hb Hc) as (Da & Db & Dc).
    rewrite b64_groups_triple.
    cbn [String.list_ascii_of_string b64decode_groups]. cbv zeta.
    destruct (b64_index_char _ H0) as [-> _]. destruct (b64_index_char _ H1) as [-> _].
    destruct (b64_index_char _ H2) as [-> ->]. destruct (b64_index_char _ H3) as [-> ->].
    by rewrite Da, Db, Dc, IH.
Qed.

(** X15. The base64 text determines the image: decoding it gives back the
    bytes that were encoded, so two different images never get the same
    text. *)
Theorem b64encode_is_lossless (bytes : string) :
  b64decode (b64encode bytes) = bytes ∧
  (∀ other, b64encode other = b64encode bytes → other = bytes).
Proof.
  assert (∀ s, b64decode (b64encode s) = s) as Hround.
  { intros s. unfold b64decode, b64encode.
    rewrite b64decode_groups_encode.
    - change (map ascii_of_N (map N_of_ascii ?l)) with (ascii_of_N <$> (N_of_ascii <$> l)).
      rewrite <- list_fmap_compose.
      rewrite (list_fmap_ext _ id (String.list_ascii_of_string s)).
      + by rewrite list_fmap_id, String.string_of_list_ascii_of_string.
      + intros i c _. apply ascii_N_embedding.
    - apply Forall_fmap, Forall_true. intros c. apply N_ascii_bounded. }
  split; [apply Hround|].
  intros other Heq. by rewrite <- (Hround other), Heq, Hround.
Qed.

Example b64decode_sample : b64decode "aGVsbG8=" = "hello".
Proof. reflexivity. Qed.

(** ** The embedded script text *)

Lemma unescape_entity (s : string) :
  unescape_from 0 ("&amp;" +:+ s) = String "&" (unescape_from 0 s) ∧
  unescape_from 0 ("&lt;" +:+ s) = String "<" (unescape_from 0 s) ∧
  unescape_from 0 ("&gt;" +:+ s) = String ">" (unescape_from 0 s).
Proof. destruct s; repeat split; reflexivity. Qed.

Lemma unescape_each (s : string) :
  unescape_from 0 (flat_map_string escape_char s) = s.
Proof.
  induction s as [|c s IH]; [done|]. cbn [flat_map_string]. unfold escape_char at 1.
  destruct (unescape_entity (flat_map_string escape_char s)) as (Ha & Hl & Hg).
  destruct (Ascii.eqb_spec c "&") as [->|Hamp]; [by rewrite Ha, IH|].
  destruct (Ascii.eqb_spec c "<") as [->|Hlt]; [by rewrite Hl, IH|].
  destruct (Ascii.eqb_spec c ">") as [->|Hgt]; [by rewrite Hg, IH|].
  rewrite string_app_cons, string_app_nil. cbn [unescape_from].
  destruct (Ascii.eqb_spec c "&") as [|_]; [done|]. by rewrite IH.
Qed.

(** X16. Escaping loses nothing: reading the entities back gives the
    script text again, character for character, so two different texts
    are never shown as the same code listing. *)
Theorem escaping_is_lossless (code_text : string) :
  unescape_html (escape_html code_text) = code_text ∧
  (∀ other, escape_html other = escape_html code_text → other = code_text).
Proof.
  assert (∀ s, unescape_html (escape_html s) = s) as Hround.
  { intros s. unfold unescape_html. rewrite escape_html_each. apply unescape_each. }
  split; [apply Hround|].
  intros other Heq. by rewrite <- (Hround other), Heq, Hround.
Qed.

Lemma string_length_app (a b : string) :
  String.length (a +:+ b) = (String.length a + String.length b)%nat.
Proof.
  induction a as [|x a IH]; [done|].
  rewrite string_app_cons. cbn [String.length]. by rewrite IH.
Qed.

Lemma escape_char_length (c : ascii) :
  (1 ≤ String.length (escape_char c))%nat ∧
  (String.length (escape_char c) = 1%nat → plain_char c = true ∧ escape_char c = String c "").
Proof.
  unfold escape_char, plain_char.
  destruct (Ascii.eqb c "&"); [split; simpl; [lia|intros; lia]|].
  destruct (Ascii.eqb c "<"); [split; simpl; [lia|intros; lia]|].
  destruct (Ascii.eqb c ">"); [split; simpl; [lia|intros; lia]|].
  split; simpl; [lia|]. intros _. by split.
Qed.

Lemma escape_each_length (s : string) :
  (String.length s ≤ String.length (flat_map_string escape_char s))%nat.
Proof.
  induction s as [|c s IH]; [done|]. cbn [flat_map_string String.length].
  rewrite string_length_app. pose proof (escape_char_length c) as [? _]. lia.
Qed.

(** X17. The escaping step never shortens the text, and it returns the
    text unchanged exactly when the text contains no ampersand, less-than
    or greater-than character. *)
Theorem escaping_plain_text (code_text : string) :
  (String.length code_text ≤ String.length (escape_html code_text))%nat ∧
  (escape_html code_text = code_text ↔
   forallb plain_char (String.list_ascii_of_string code_text) = true).
Proof.
  rewrite escape_html_each. split; [apply escape_each_length|].
  induction code_text as [|c s IH]; [done|].
  cbn [flat_map_string String.list_ascii_of_string forallb].
  rewrite andb_true_iff, <- IH.
  pose proof (escape_char_length c) as [Hge Hone].
  pose proof (escape_each_length s) as Hlen.
  split.
  - intros Heq.
    assert (String.length (escape_char c) = 1%nat) as Hc.
    { apply (f_equal String.length) in Heq.
      rewrite string_length_app in Heq. cbn [String.length] in Heq. lia. }
    destruct (Hone Hc) as [Hplain Hchar]. split; [done|].
    rewrite Hchar, string_app_cons, string_app_nil in Heq. by injection Heq.
  - intros [Hplain Heq]. rewrite Heq.
    unfold plain_char in Hplain. unfold escape_char.
    destruct (Ascii.eqb c "&"); [done|].
    destruct (Ascii.eqb c "<"); [done|].
    destruct (Ascii.eqb c ">"); [done|]. done.
Qed.

(** ** The count *)

Lemma occurrences_le_length (c : cell) (l : list cell) :
  (occurrences c l ≤ length l)%nat.
Proof. unfold occurrences. apply length_filter. Qed.

Lemma occurrences_all (c : cell) (l : list cell) :
  occurrences c l = length l ↔ Forall (λ x, x = c) l.
Proof.
  induction l as [|x l IH]; [split; [constructor|done]|].
  rewrite occurrences_cons, Forall_cons. cbn [length].
  pose proof (occurrences_le_length c l).
  destruct (decide (x = c)) as [->|Hne].
  - rewrite <- IH. split; [intros; split; [done|lia]|intros [_ ->]; done].
  - split; [lia|]. by intros [? _].
Qed.

(** X18. The count of the Finance department is never negative and never
    more than the number of rows; it is zero exactly when no department
    field is the string [Finance] (fields that differ in case, or are
    missing or numeric, do not count), and equals the number of rows
    exactly when every field is. *)
Theorem finance_count_bounds (col : list cell) :
  0 ≤ finance_count_of col ≤ Z.of_nat (length col) ∧
  (finance_count_of col = 0 ↔ CStr "Finance" ∉ col) ∧
  (finance_count_of col = Z.of_nat (length col) ↔ Forall (λ c, c = CStr "Finance") col).
Proof.
  unfold finance_count_of. rewrite bool_sum_count.
  fold (occurrences (CStr "Finance") col).
  pose proof (occurrences_le_length (CStr "Finance") col) as Hle.
  pose proof (occurrences_pos (CStr "Finance") col) as Hpos.
  split; [lia|]. split.
  - split.
    + intros Hzero Hin. apply Hpos in Hin. lia.
    + intros Hnot. destruct (occurrences (CStr "Finance") col) eqn:Hn; [done|].
      exfalso. apply Hnot, Hpos. lia.
  - rewrite <- occurrences_all. split; [apply Nat2Z.inj|by intros ->].
Qed.

Example finance_count_is_case_sensitive :
  finance_count_of [CStr "finance"; CStr "FINANCE"; CStr "Finance "; CNaN; CInt 7] = 0.
Proof. reflexivity. Qed.
